(** * NetBox device monitoring: result log and module framework

    A shallow embedding of [netbox/dcim/monitoring.py].  Python objects
    live in an explicit store: list objects, [MonitoringResults] objects
    and [Monitoring] instances are addressed by locations, so that the
    in-place updates of the source ([list.append], [+=] on a list, the
    aliasing assignment in [__add__]) and object identity are visible. *)

From Stdlib Require Import ZArith String Sorted Permutation Lia.
From stdpp Require Import base tactics option list.

Local Open Scope string_scope.
Local Open Scope Z_scope.
Local Open Scope list_scope.

(** ** Constants of [dcim/constants.py] *)

(** Modelled from the spec: the five log-level constants imported from
    [.constants], whose values are not part of the source at hand.  They are
    kept abstract; the spec orders them DEFAULT, OK, INFO, WARNING, FAILURE
    from least to most severe, which [levels_ordered] records. *)
Class Constants := {
  LOG_DEFAULT : Z;
  LOG_OK : Z;
  LOG_INFO : Z;
  LOG_WARNING : Z;
  LOG_FAILURE : Z
}.

Definition levels_ordered (C : Constants) : Prop :=
  LOG_DEFAULT < LOG_OK /\ LOG_OK < LOG_INFO /\
  LOG_INFO < LOG_WARNING /\ LOG_WARNING < LOG_FAILURE.

(** The values upstream NetBox uses for its report log levels. *)
Definition netbox_levels : Constants :=
  {| LOG_DEFAULT := 0; LOG_OK := 10; LOG_INFO := 20;
     LOG_WARNING := 30; LOG_FAILURE := 40 |}.

Inductive Severity := DEFAULT | OK | INFO | WARNING | FAILURE.

#[global] Instance Severity_eq_dec : EqDecision Severity.
Proof. solve_decision. Defined.

Definition all_severities : list Severity := [DEFAULT; OK; INFO; WARNING; FAILURE].

Definition level_of `{Constants} (s : Severity) : Z :=
  match s with
  | DEFAULT => LOG_DEFAULT
  | OK => LOG_OK
  | INFO => LOG_INFO
  | WARNING => LOG_WARNING
  | FAILURE => LOG_FAILURE
  end.

(** Precedence of the spec: FAILURE > WARNING > INFO > OK > DEFAULT. *)
Definition precedence (s : Severity) : nat :=
  match s with
  | DEFAULT => 0 | OK => 1 | INFO => 2 | WARNING => 3 | FAILURE => 4
  end%nat.

(** ** Python values and exceptions *)

Abbreviation loc := nat (only parsing).

Inductive exn :=
  | KeyError
  | IndexError
  | ValueError
  | NotImplementedError
  | RuntimeError (msg : string)
  | BadReference.  (* a location outside the store; no Python counterpart *)

(** The values that can reach the right operand of [__add__]. *)
Inductive pyval :=
  | PyNone
  | PyBool (b : bool)
  | PyInt (z : Z)
  | PyStr (s : string)
  | PyResults (r : loc)
  | PyMonitoring (m : loc).

(** [other == 0]: [bool] is a subclass of [int], so [False == 0] holds;
    objects without [__eq__] compare by identity and never equal [0]. *)
Definition py_eq_zero (v : pyval) : bool :=
  match v with
  | PyInt z => Z.eqb z 0
  | PyBool b => negb b
  | _ => false
  end.

Definition isinstance_MonitoringResults (v : pyval) : option loc :=
  match v with
  | PyResults r => Some r
  | _ => None
  end.

(** ** Dictionaries keyed by level, in insertion order *)

Definition dict := list (Z * loc).

Fixpoint dict_get (d : dict) (k : Z) : option loc :=
  match d with
  | [] => None
  | (k', v) :: d' => if decide (k' = k) then Some v else dict_get d' k
  end.

Fixpoint dict_set (d : dict) (k : Z) (v : loc) : dict :=
  match d with
  | [] => [(k, v)]
  | (k', v') :: d' =>
      if decide (k' = k) then (k', v) :: d' else (k', v') :: dict_set d' k v
  end.

Definition dict_keys (d : dict) : list Z := map fst d.

Definition dict_contains (d : dict) (k : Z) : bool :=
  match dict_get d k with Some _ => true | None => false end.

(** ** Objects *)

Record MonitoringResults := { logs : dict }.

Record MonitoringMessage := { level : Z; message : string }.

(** The body of a plugin's [get] override, as far as this module can
    observe it: calls of the logging primitives, possibly ended by an
    uncaught exception. *)
Inductive stmt :=
  | LogDefault (m : string)
  | LogOk (m : string)
  | LogInfo (m : string)
  | LogWarning (m : string)
  | LogFailure (m : string)
  | Raise (e : exn).

Definition script := list stmt.

Section Model.

Context {C : Constants} {Device : Type}.

(** A subclass of [Monitoring]: its name and its [get] method. *)
Record MonitoringClass := {
  cls_module : string;
  cls_name : string;
  cls_get : Device -> script
}.

(** The base class: [get] raises [NotImplementedError]. *)
Definition Monitoring_base : MonitoringClass :=
  {| cls_module := "monitoring"; cls_name := "Monitoring";
     cls_get := fun _ => [Raise NotImplementedError] |}.

Record Monitoring := {
  class_of : MonitoringClass;
  active_test : option string;
  failed : bool;
  _results : loc
}.

Record heap := {
  h_lists : list (list string);
  h_results : list MonitoringResults;
  h_modules : list Monitoring
}.

Definition empty_heap : heap :=
  {| h_lists := []; h_results := []; h_modules := [] |}.

(** ** State and exception monad *)

Definition M (A : Type) : Type := heap -> heap * (exn + A).

Definition ret {A} (a : A) : M A := fun h => (h, inr a).

Definition raise {A} (e : exn) : M A := fun h => (h, inl e).

Definition bind {A B} (c : M A) (k : A -> M B) : M B :=
  fun h =>
    match c h with
    | (h', inr a) => k a h'
    | (h', inl e) => (h', inl e)
    end.

Notation "'let!' x ':=' c 'in' k" := (bind c (fun x => k))
  (at level 10, x name, c at level 100, k at level 200).
Notation "'do!' c 'in' k" := (bind c (fun _ => k))
  (at level 10, c at level 100, k at level 200).

(** ** Store primitives *)

(** [[]]: a new empty list object. *)
Definition list_new : M loc := fun h =>
  ({| h_lists := h_lists h ++ [[]]; h_results := h_results h;
      h_modules := h_modules h |},
   inr (length (h_lists h))).

Definition list_read (l : loc) : M (list string) := fun h =>
  match h_lists h !! l with
  | Some xs => (h, inr xs)
  | None => (h, inl BadReference)
  end.

Definition list_write (l : loc) (xs : list string) : M unit := fun h =>
  ({| h_lists := <[l := xs]> (h_lists h); h_results := h_results h;
      h_modules := h_modules h |},
   inr tt).

(** [l.append(m)] *)
Definition list_append (l : loc) (m : string) : M unit :=
  let! xs := list_read l in
  list_write l (xs ++ [m]).

(** [l += l'] on lists: extends [l] in place by the elements of [l']. *)
Definition list_iadd (l l' : loc) : M unit :=
  let! xs := list_read l in
  let! ys := list_read l' in
  list_write l (xs ++ ys).

Definition results_new (d : dict) : M loc := fun h =>
  ({| h_lists := h_lists h; h_results := h_results h ++ [{| logs := d |}];
      h_modules := h_modules h |},
   inr (length (h_results h))).

(** [self.logs] *)
Definition get_logs (self : loc) : M dict := fun h =>
  match h_results h !! self with
  | Some r => (h, inr (logs r))
  | None => (h, inl BadReference)
  end.

Definition set_logs (self : loc) (d : dict) : M unit := fun h =>
  ({| h_lists := h_lists h;
      h_results := <[self := {| logs := d |}]> (h_results h);
      h_modules := h_modules h |},
   inr tt).

(** [d[k]] *)
Definition dict_getitem (d : dict) (k : Z) : M loc :=
  match dict_get d k with
  | Some l => ret l
  | None => raise KeyError
  end.

(** [self.logs[k] = l] *)
Definition logs_setitem (self : loc) (k : Z) (l : loc) : M unit :=
  let! d := get_logs self in
  set_logs self (dict_set d k l).

(** ** class MonitoringResults *)

Definition MonitoringResults_init : M loc :=
  let! l0 := list_new in
  let! l1 := list_new in
  let! l2 := list_new in
  let! l3 := list_new in
  let! l4 := list_new in
  results_new
    (dict_set (dict_set (dict_set (dict_set (dict_set []
       LOG_DEFAULT l0) LOG_OK l1) LOG_INFO l2) LOG_WARNING l3) LOG_FAILURE l4).

Definition log (self : loc) (level : Z) (message : string) : M unit :=
  let! d := get_logs self in
  let! l := dict_getitem d level in
  list_append l message.

(** [self.logs[level]] as a sequence of texts. *)
Definition logs_at (self : loc) (level : Z) : M (list string) :=
  let! d := get_logs self in
  let! l := dict_getitem d level in
  list_read l.

Definition get_worst_message (self : loc) : M MonitoringMessage :=
  let! xs := logs_at self LOG_FAILURE in
  match xs with
  | m :: _ => ret {| level := LOG_FAILURE; message := m |}
  | [] =>
  let! xs := logs_at self LOG_WARNING in
  match xs with
  | m :: _ => ret {| level := LOG_WARNING; message := m |}
  | [] =>
  let! xs := logs_at self LOG_INFO in
  match xs with
  | m :: _ => ret {| level := LOG_INFO; message := m |}
  | [] =>
  let! xs := logs_at self LOG_OK in
  match xs with
  | m :: _ => ret {| level := LOG_OK; message := m |}
  | [] =>
  let! xs := logs_at self LOG_DEFAULT in
  match xs with
  | m :: _ => ret {| level := LOG_DEFAULT; message := m |}
  | [] => ret {| level := LOG_DEFAULT; message := "" |}
  end end end end end.

(** One iteration of [for key in other.logs] in [__add__]. *)
Definition add_step (self other : loc) (key : Z) : M unit :=
  let! ds := get_logs self in
  if dict_contains ds key then
    let! la := dict_getitem ds key in
    let! d' := get_logs other in
    let! lb := dict_getitem d' key in
    do! list_iadd la lb in
    logs_setitem self key la
  else
    let! d' := get_logs other in
    let! lb := dict_getitem d' key in
    logs_setitem self key lb.

Fixpoint add_loop (self other : loc) (keys : list Z) : M unit :=
  match keys with
  | [] => ret tt
  | key :: keys' => do! add_step self other key in add_loop self other keys'
  end.

(** [self + other] *)
Definition MonitoringResults_add (self : loc) (other : pyval) : M loc :=
  if py_eq_zero other then ret self
  else
    match isinstance_MonitoringResults other with
    | None => raise ValueError
    | Some o =>
        let! d := get_logs o in
        do! add_loop self o (dict_keys d) in
        ret self
    end.

(** [self.logs[level]]: the list object itself, not a copy. *)
Definition get_messages (self : loc) (level : Z) : M loc :=
  let! d := get_logs self in
  dict_getitem d level.

(** [output.sort(key=lambda m: m.level, reverse=True)]: Python's sort is
    stable, also with [reverse=True]; a stable sort has one possible
    result, computed here by insertion. *)
Fixpoint insert_desc (m : MonitoringMessage) (l : list MonitoringMessage)
  : list MonitoringMessage :=
  match l with
  | [] => [m]
  | m' :: l' =>
      if Z.ltb (level m) (level m') then m' :: insert_desc m l'
      else m :: m' :: l'
  end.

Fixpoint sort_desc (l : list MonitoringMessage) : list MonitoringMessage :=
  match l with
  | [] => []
  | m :: l' => insert_desc m (sort_desc l')
  end.

Fixpoint collect_messages (self : loc) (keys : list Z)
    (output : list MonitoringMessage) : M (list MonitoringMessage) :=
  match keys with
  | [] => ret output
  | lv :: keys' =>
      let! xs := logs_at self lv in
      collect_messages self keys'
        (output ++ map (fun m => {| level := lv; message := m |}) xs)
  end.

Definition get_all_messages (self : loc) : M (list MonitoringMessage) :=
  let! d := get_logs self in
  let! output := collect_messages self (dict_keys d) [] in
  ret (sort_desc output).

(** ** class Monitoring *)

Definition module_new (o : Monitoring) : M loc := fun h =>
  ({| h_lists := h_lists h; h_results := h_results h;
      h_modules := h_modules h ++ [o] |},
   inr (length (h_modules h))).

Definition get_module (self : loc) : M Monitoring := fun h =>
  match h_modules h !! self with
  | Some o => (h, inr o)
  | None => (h, inl BadReference)
  end.

Definition Monitoring_init (c : MonitoringClass) : M loc :=
  let! r := MonitoringResults_init in
  module_new {| class_of := c; active_test := None; failed := false;
                _results := r |}.

(** The [module], [name] and [full_name] properties; [cls_module] is the
    last component of the dotted [__module__] path. *)
Definition module (o : Monitoring) : string := cls_module (class_of o).

Definition name (o : Monitoring) : string := cls_name (class_of o).

Definition full_name (o : Monitoring) : string :=
  String.append (module o) (String.append "." (name o)).

Definition log_default (self : loc) (message : string) : M unit :=
  let! o := get_module self in
  log (_results o) LOG_DEFAULT message.

Definition log_ok (self : loc) (message : string) : M unit :=
  let! o := get_module self in
  log (_results o) LOG_OK message.

Definition log_info (self : loc) (message : string) : M unit :=
  let! o := get_module self in
  log (_results o) LOG_INFO message.

Definition log_warning (self : loc) (message : string) : M unit :=
  let! o := get_module self in
  log (_results o) LOG_WARNING message.

Definition log_failure (self : loc) (message : string) : M unit :=
  let! o := get_module self in
  log (_results o) LOG_FAILURE message.

Definition exec_stmt (self : loc) (st : stmt) : M unit :=
  match st with
  | LogDefault m => log_default self m
  | LogOk m => log_ok self m
  | LogInfo m => log_info self m
  | LogWarning m => log_warning self m
  | LogFailure m => log_failure self m
  | Raise e => raise e
  end.

Fixpoint exec_script (self : loc) (p : script) : M unit :=
  match p with
  | [] => ret tt
  | st :: p' => do! exec_stmt self st in exec_script self p'
  end.

(** [self.get(device)], dispatched on the class of [self]. *)
Definition Monitoring_get (self : loc) (device : Device) : M unit :=
  let! o := get_module self in
  exec_script self (cls_get (class_of o) device).

Definition run (self : loc) (device : Device) : M loc :=
  do! Monitoring_get self device in
  let! o := get_module self in
  ret (_results o).

(** ** Discovery and aggregation *)

(** [[cls() for _, cls in inspect.getmembers(module, is_monitoring)]] *)
Fixpoint instantiate_all (members : list MonitoringClass) : M (list loc) :=
  match members with
  | [] => ret []
  | c :: members' =>
      let! m := Monitoring_init c in
      let! ms := instantiate_all members' in
      ret (m :: ms)
  end.

Fixpoint get_monitoring_loop (packages : list (list MonitoringClass))
    (module_list : list loc) : M (list loc) :=
  match packages with
  | [] => ret module_list
  | members :: packages' =>
      let! new := instantiate_all members in
      get_monitoring_loop packages' (module_list ++ new)
  end.

(** [packages] stands for what walking [settings.MONITORING_ROOT] and
    importing each module yields: per module, its monitoring classes. *)
Definition get_monitoring (packages : list (list MonitoringClass))
  : M (list loc) :=
  get_monitoring_loop packages [].

Fixpoint get_loop (results : loc) (modules : list loc) (device : Device)
  : M loc :=
  match modules with
  | [] => ret results
  | module :: modules' =>
      let! r := run module device in
      let! results' := MonitoringResults_add results (PyResults r) in
      get_loop results' modules' device
  end.

Definition get (packages : list (list MonitoringClass)) (device : Device)
  : M loc :=
  let! modules := get_monitoring packages in
  let! results := MonitoringResults_init in
  get_loop results modules device.

(** ** Store invariant and the bucket view *)

Definition standard_keys : list Z :=
  [LOG_DEFAULT; LOG_OK; LOG_INFO; LOG_WARNING; LOG_FAILURE].

(** What every store built through the constructors and methods above
    satisfies: each result log has the five buckets of [__init__], every
    bucket is a list object of the store, no list object serves two
    buckets, and every module instance owns a result log of its own. *)
Record heap_ok (h : heap) : Prop := {
  ok_keys : forall r o,
    h_results h !! r = Some o -> dict_keys (logs o) = standard_keys;
  ok_alloc : forall r o k l,
    h_results h !! r = Some o -> dict_get (logs o) k = Some l ->
    (l < length (h_lists h))%nat;
  ok_sep : forall r1 r2 o1 o2 k1 k2 l,
    h_results h !! r1 = Some o1 -> h_results h !! r2 = Some o2 ->
    dict_get (logs o1) k1 = Some l -> dict_get (logs o2) k2 = Some l ->
    r1 = r2 /\ k1 = k2;
  ok_mod : forall m o,
    h_modules h !! m = Some o -> (_results o < length (h_results h))%nat;
  ok_own : forall m1 m2 o1 o2,
    h_modules h !! m1 = Some o1 -> h_modules h !! m2 = Some o2 ->
    _results o1 = _results o2 -> m1 = m2
}.

(** The texts held by bucket [k] of result log [r]. *)
Definition bucket (h : heap) (r : loc) (k : Z) : option (list string) :=
  match h_results h !! r with
  | Some o =>
      match dict_get (logs o) k with
      | Some l => h_lists h !! l
      | None => None
      end
  | None => None
  end.

Definition with_lists (h : heap) (ls : list (list string)) : heap :=
  {| h_lists := ls; h_results := h_results h; h_modules := h_modules h |}.

(** Same objects, same dictionaries, same number of list objects. *)
Definition same_shape (h h' : heap) : Prop :=
  h_results h' = h_results h /\ h_modules h' = h_modules h /\
  length (h_lists h') = length (h_lists h).

(** ** What a script logs *)

Definition stmt_log (st : stmt) : option (Severity * string) :=
  match st with
  | LogDefault m => Some (DEFAULT, m)
  | LogOk m => Some (OK, m)
  | LogInfo m => Some (INFO, m)
  | LogWarning m => Some (WARNING, m)
  | LogFailure m => Some (FAILURE, m)
  | Raise _ => None
  end.

(** The exception that ends the script, if any. *)
Fixpoint script_outcome (p : script) : option exn :=
  match p with
  | [] => None
  | Raise e :: _ => Some e
  | _ :: p' => script_outcome p'
  end.

(** The texts the script logs at severity [s] before it ends. *)
Fixpoint script_messages (p : script) (s : Severity) : list string :=
  match p with
  | [] => []
  | st :: p' =>
      match stmt_log st with
      | None => []
      | Some (s', m) =>
          if decide (s' = s) then m :: script_messages p' s
          else script_messages p' s
      end
  end.

(** The texts of a sequence of [log] calls that went to severity [s]. *)
Definition logged_at (calls : list (Severity * string)) (s : Severity)
  : list string :=
  map snd (filter (fun c => fst c = s) calls).

Fixpoint log_all (self : loc) (calls : list (Severity * string)) : M unit :=
  match calls with
  | [] => ret tt
  | (s, m) :: calls' => do! log self (level_of s) m in log_all self calls'
  end.

Definition tagged (s : Severity) (xs : list string) : list MonitoringMessage :=
  map (fun m => {| level := level_of s; message := m |}) xs.

(** ** Definitions used to state the results *)

(** The store right after [MonitoringResults()]. *)
Definition init_dict (n : nat) : dict :=
  [(LOG_DEFAULT, n); (LOG_OK, S n); (LOG_INFO, S (S n));
   (LOG_WARNING, S (S (S n))); (LOG_FAILURE, S (S (S (S n))))].

Definition init_heap (h : heap) : heap :=
  {| h_lists := h_lists h ++ [[]; []; []; []; []];
     h_results := h_results h ++ [{| logs := init_dict (length (h_lists h)) |}];
     h_modules := h_modules h |}.

(** The texts of bucket [s]; empty when the bucket does not exist. *)
Definition messages (h : heap) (r : loc) (s : Severity) : list string :=
  default [] (bucket h r (level_of s)).

(** Order of [get_all_messages]: most severe first. *)
Definition level_ge (m1 m2 : MonitoringMessage) : Prop := level m2 <= level m1.

(** [h'] keeps every object of [h] and the contents of its logs. *)
Definition extends (h h' : heap) : Prop :=
  (exists suffix, h_modules h' = h_modules h ++ suffix) /\
  (length (h_results h) <= length (h_results h'))%nat /\
  (forall r k, (r < length (h_results h))%nat -> bucket h' r k = bucket h r k).

(** [m] is an instance of class [c] that has logged nothing yet. *)
Definition fresh_module (h : heap) (m : loc) (c : MonitoringClass) : Prop :=
  exists o,
    h_modules h !! m = Some o /\ class_of o = c /\
    forall s, bucket h (_results o) (level_of s) = Some [].

(** The exception of the first class whose [get] raises on [device]. *)
Fixpoint first_failure (device : Device) (cs : list MonitoringClass)
  : option exn :=
  match cs with
  | [] => None
  | c :: cs' =>
      match script_outcome (cls_get c device) with
      | Some e => Some e
      | None => first_failure device cs'
      end
  end.

(** The message [get_worst_message] picks, given the texts of each bucket. *)
Definition worst_of (f : Severity -> list string) : MonitoringMessage :=
  match f FAILURE with
  | m :: _ => {| level := LOG_FAILURE; message := m |}
  | [] =>
  match f WARNING with
  | m :: _ => {| level := LOG_WARNING; message := m |}
  | [] =>
  match f INFO with
  | m :: _ => {| level := LOG_INFO; message := m |}
  | [] =>
  match f OK with
  | m :: _ => {| level := LOG_OK; message := m |}
  | [] =>
  match f DEFAULT with
  | m :: _ => {| level := LOG_DEFAULT; message := m |}
  | [] => {| level := LOG_DEFAULT; message := "" |}
  end end end end end.

(** How many of the classes [get] runs on [device]: all of them, or those up
    to and including the first whose [get] raises. *)
Fixpoint invoked (device : Device) (cs : list MonitoringClass) : nat :=
  match cs with
  | [] => 0%nat
  | c :: cs' =>
      match script_outcome (cls_get c device) with
      | Some _ => 1%nat
      | None => S (invoked device cs')
      end
  end.

(** [m] is an instance of class [c] whose log holds what one run of [c] on
    [device] logs, and nothing else. *)
Definition module_logged (h : heap) (device : Device) (m : loc)
    (c : MonitoringClass) : Prop :=
  exists o,
    h_modules h !! m = Some o /\ class_of o = c /\
    forall s, bucket h (_results o) (level_of s) =
      Some (script_messages (cls_get c device) s).

(** ** Lemmas on dictionaries *)

Lemma dict_get_keys (d : dict) k l :
  dict_get d k = Some l -> k ∈ dict_keys d.
Proof.
  induction d as [|[k' v] d IH]; simpl; [done|].
  case_decide; subst; intros Hg.
  - apply list_elem_of_here.
  - apply list_elem_of_further; auto.
Qed.

Lemma dict_keys_get (d : dict) k :
  k ∈ dict_keys d -> is_Some (dict_get d k).
Proof.
  induction d as [|[k' v] d IH]; simpl; intros Hin.
  - by apply elem_of_nil in Hin.
  - case_decide; [eauto|].
    apply elem_of_cons in Hin as [->|Hin]; [done|auto].
Qed.

Lemma dict_set_same (d : dict) k l :
  dict_get d k = Some l -> dict_set d k l = d.
Proof.
  induction d as [|[k' v] d IH]; simpl; [done|].
  case_decide; intros Hg.
  - congruence.
  - by rewrite IH.
Qed.

Lemma levels_NoDup : levels_ordered C -> NoDup standard_keys.
Proof.
  intros (H1 & H2 & H3 & H4). unfold standard_keys.
  repeat (apply NoDup_cons; split;
    [rewrite ?elem_of_cons, elem_of_nil; lia|]).
  apply NoDup_nil_2.
Qed.

Lemma level_of_standard (s : Severity) : level_of s ∈ standard_keys.
Proof.
  unfold standard_keys.
  destruct s; simpl; rewrite ?elem_of_cons; tauto.
Qed.

Lemma level_of_inj :
  levels_ordered C -> forall s s', level_of s = level_of s' -> s = s'.
Proof.
  intros (H1 & H2 & H3 & H4) s s'.
  destruct s, s'; simpl; intros; try done; lia.
Qed.

(** ** The invariant depends on the shape of the store only *)

Lemma heap_ok_same_shape h h' :
  heap_ok h -> same_shape h h' -> heap_ok h'.
Proof.
  intros [Hk Ha Hs Hm Ho] (Hr & Hmo & Hl).
  split; rewrite ?Hr, ?Hmo, ?Hl; assumption.
Qed.

Lemma same_shape_refl h : same_shape h h.
Proof. by repeat split. Qed.

Lemma same_shape_trans h1 h2 h3 :
  same_shape h1 h2 -> same_shape h2 h3 -> same_shape h1 h3.
Proof.
  intros (A1 & A2 & A3) (B1 & B2 & B3).
  repeat split; congruence.
Qed.

Lemma heap_ok_empty : heap_ok empty_heap.
Proof. split; simpl; intros *; by rewrite ?lookup_nil. Qed.

Lemma bucket_is_Some h r s :
  heap_ok h -> (r < length (h_results h))%nat ->
  is_Some (bucket h r (level_of s)).
Proof.
  intros Hok Hr. unfold bucket.
  destruct (h_results h !! r) as [o|] eqn:Ho;
    [|apply lookup_ge_None in Ho; lia].
  destruct (dict_keys_get (logs o) (level_of s)) as [l Hl].
  { rewrite (ok_keys _ Hok _ _ Ho). apply level_of_standard. }
  rewrite Hl. apply lookup_lt_is_Some_2. by eapply ok_alloc.
Qed.

(** ** Effect of [log] *)

Lemma log_spec h r k m xs :
  heap_ok h -> bucket h r k = Some xs ->
  exists h',
    log r k m h = (h', inr tt) /\ same_shape h h' /\
    bucket h' r k = Some (xs ++ [m]) /\
    (forall r' k', (r', k') <> (r, k) -> bucket h' r' k' = bucket h r' k').
Proof.
  intros Hok Hb. unfold bucket in Hb.
  destruct (h_results h !! r) as [o|] eqn:Ho; [|done].
  destruct (dict_get (logs o) k) as [l|] eqn:Hl; [|done].
  exists (with_lists h (<[l := xs ++ [m]]> (h_lists h))).
  split; [|split; [|split]].
  - unfold log, bind, get_logs, dict_getitem, list_append, list_read,
      list_write, ret, bind. rewrite Ho, Hl. simpl. by rewrite Hb.
  - repeat split; simpl; auto. by rewrite length_insert.
  - unfold bucket, with_lists. simpl. rewrite Ho, Hl.
    apply list_lookup_insert_eq. by eapply lookup_lt_Some.
  - intros r' k' Hne. unfold bucket, with_lists. simpl.
    destruct (h_results h !! r') as [o'|] eqn:Ho'; [|done].
    destruct (dict_get (logs o') k') as [l'|] eqn:Hl'; [|done].
    apply list_lookup_insert_ne. intros ->.
    destruct (ok_sep _ Hok _ _ _ _ _ _ _ Ho Ho' Hl Hl') as [-> ->].
    by apply Hne.
Qed.

(** ** Effect of [__add__] *)

Lemma add_step_eq h a b oa ob k la lb xs ys :
  h_results h !! a = Some oa -> h_results h !! b = Some ob ->
  dict_get (logs oa) k = Some la -> dict_get (logs ob) k = Some lb ->
  h_lists h !! la = Some xs -> h_lists h !! lb = Some ys ->
  add_step a b k h = (with_lists h (<[la := xs ++ ys]> (h_lists h)), inr tt).
Proof.
  intros Ha Hb Hla Hlb Hxs Hys.
  unfold add_step, bind, get_logs, dict_contains. rewrite Ha, Hla.
  unfold dict_getitem, ret. rewrite Hla, Hb, Hlb.
  unfold list_iadd, bind, list_read. rewrite Hxs, Hys.
  unfold list_write, logs_setitem, bind, get_logs, set_logs. simpl.
  rewrite Ha, (dict_set_same _ _ _ Hla). unfold with_lists.
  destruct oa as [da]. simpl. by rewrite (list_insert_id _ _ _ Ha).
Qed.

Lemma add_loop_spec a b oa ob : forall ks h,
  h_results h !! a = Some oa -> h_results h !! b = Some ob ->
  (forall k, k ∈ ks ->
     is_Some (dict_get (logs oa) k) /\ is_Some (dict_get (logs ob) k)) ->
  (forall k l, dict_get (logs oa) k = Some l \/ dict_get (logs ob) k = Some l ->
     (l < length (h_lists h))%nat) ->
  NoDup ks ->
  (forall k1 k2 l,
     dict_get (logs oa) k1 = Some l -> dict_get (logs oa) k2 = Some l ->
     k1 = k2) ->
  (forall k1 k2 l,
     dict_get (logs oa) k1 = Some l -> dict_get (logs ob) k2 = Some l ->
     False) ->
  exists ls,
    add_loop a b ks h = (with_lists h ls, inr tt) /\
    length ls = length (h_lists h) /\
    (forall l, (forall k, k ∈ ks -> dict_get (logs oa) k <> Some l) ->
       ls !! l = h_lists h !! l) /\
    (forall k la lb xs ys, k ∈ ks ->
       dict_get (logs oa) k = Some la -> dict_get (logs ob) k = Some lb ->
       h_lists h !! la = Some xs -> h_lists h !! lb = Some ys ->
       ls !! la = Some (xs ++ ys)).
Proof.
  induction ks as [|k ks IH]; intros h Ha Hb Hks Hal Hnd Hinj Hdisj.
  - exists (h_lists h). split; [|split; [done|split]].
    + simpl. unfold ret, with_lists. by destruct h.
    + done.
    + intros * Hin. by apply elem_of_nil in Hin.
  - apply NoDup_cons in Hnd as [Hk Hnd].
    destruct (Hks k) as [[la Hla] [lb Hlb]]; [apply list_elem_of_here|].
    assert (Hxs : is_Some (h_lists h !! la))
      by (apply lookup_lt_is_Some_2; eauto).
    assert (Hys : is_Some (h_lists h !! lb))
      by (apply lookup_lt_is_Some_2; eauto).
    destruct Hxs as [xs Hxs], Hys as [ys Hys].
    pose (h1 := with_lists h (<[la := xs ++ ys]> (h_lists h))).
    destruct (IH h1) as (ls & Hrun & Hlen & Hframe & Heff); auto.
    { intros k' Hin. apply Hks. by apply list_elem_of_further. }
    { intros k' l Hl. simpl. rewrite length_insert. eauto. }
    exists ls. split; [|split; [|split]].
    + simpl. unfold bind.
      rewrite (add_step_eq _ _ _ _ _ _ _ _ _ _ Ha Hb Hla Hlb Hxs Hys).
      fold h1. by rewrite Hrun.
    + rewrite Hlen. simpl. by rewrite length_insert.
    + intros l Hl. rewrite Hframe.
      * simpl. apply list_lookup_insert_ne. intros ->.
        by apply (Hl k); [apply list_elem_of_here|].
      * intros k' Hin. apply Hl. by apply list_elem_of_further.
    + intros k0 la0 lb0 xs0 ys0 Hin Hla0 Hlb0 Hxs0 Hys0.
      apply elem_of_cons in Hin as [->|Hin].
      * assert (la0 = la) by congruence. assert (lb0 = lb) by congruence.
        subst. assert (xs0 = xs) by congruence.
        assert (ys0 = ys) by congruence. subst.
        rewrite Hframe.
        -- simpl. apply list_lookup_insert_eq. by eapply lookup_lt_Some.
        -- intros k' Hin Hk'. assert (k' = k) by eauto. by subst.
      * assert (la0 <> la).
        { intros ->. assert (k0 = k) by eauto. by subst. }
        assert (lb0 <> la) by (intros ->; eauto).
        apply (Heff k0 la0 lb0); auto; simpl;
          by rewrite list_lookup_insert_ne.
Qed.

Lemma add_spec h a b :
  levels_ordered C -> heap_ok h -> a <> b ->
  (a < length (h_results h))%nat -> (b < length (h_results h))%nat ->
  exists h',
    MonitoringResults_add a (PyResults b) h = (h', inr a) /\
    same_shape h h' /\
    (forall k xs ys,
       bucket h a k = Some xs -> bucket h b k = Some ys ->
       bucket h' a k = Some (xs ++ ys)) /\
    (forall r k, r <> a -> bucket h' r k = bucket h r k).
Proof.
  intros Hlv Hok Hab Ha Hb.
  destruct (h_results h !! a) as [oa|] eqn:Hoa;
    [|apply lookup_ge_None in Hoa; lia].
  destruct (h_results h !! b) as [ob|] eqn:Hob;
    [|apply lookup_ge_None in Hob; lia].
  destruct (add_loop_spec a b oa ob (dict_keys (logs ob)) h)
    as (ls & Hrun & Hlen & Hframe & Heff); auto.
  - intros k Hin. split; apply dict_keys_get; [|done].
    rewrite (ok_keys _ Hok _ _ Hoa). by rewrite <- (ok_keys _ Hok _ _ Hob).
  - intros k l [Hl|Hl];
      [apply (ok_alloc _ Hok _ _ _ _ Hoa Hl)|apply (ok_alloc _ Hok _ _ _ _ Hob Hl)].
  - rewrite (ok_keys _ Hok _ _ Hob). by apply levels_NoDup.
  - intros k1 k2 l H1 H2.
    by destruct (ok_sep _ Hok _ _ _ _ _ _ _ Hoa Hoa H1 H2).
  - intros k1 k2 l H1 H2.
    by destruct (ok_sep _ Hok _ _ _ _ _ _ _ Hoa Hob H1 H2).
  - exists (with_lists h ls). split; [|split; [|split]].
    + unfold MonitoringResults_add. simpl. unfold bind, get_logs.
      rewrite Hob, Hrun. done.
    + by repeat split.
    + intros k xs ys. unfold bucket. simpl. rewrite Hoa, Hob.
      destruct (dict_get (logs oa) k) as [la|] eqn:Hla; [|done].
      destruct (dict_get (logs ob) k) as [lb|] eqn:Hlb; [|done].
      intros Hxs Hys. eapply Heff; eauto. by eapply dict_get_keys.
    + intros r k Hr. unfold bucket. simpl.
      destruct (h_results h !! r) as [o|] eqn:Ho; [|done].
      destruct (dict_get (logs o) k) as [l|] eqn:Hl; [|done].
      apply Hframe. intros k' _ Hk'.
      by destruct (ok_sep _ Hok _ _ _ _ _ _ _ Ho Hoa Hl Hk').
Qed.

(** ** Effect of [MonitoringResults()] *)

Lemma init_eq h :
  levels_ordered C ->
  MonitoringResults_init h = (init_heap h, inr (length (h_results h))).
Proof.
  intros (H1 & H2 & H3 & H4).
  unfold MonitoringResults_init, bind, list_new, results_new, init_heap,
    init_dict. simpl.
  repeat (case_decide; [lia|]; simpl).
  rewrite !length_app. simpl. rewrite <- !app_assoc. simpl.
  repeat f_equal; lia.
Qed.

Lemma init_dict_get n k l :
  levels_ordered C ->
  dict_get (init_dict n) k = Some l ->
  exists s i, k = level_of s /\ l = (n + i)%nat /\ i = precedence s.
Proof.
  intros (H1 & H2 & H3 & H4). unfold init_dict. simpl.
  repeat case_decide; intros Heq; simplify_eq.
  - exists DEFAULT, 0%nat. repeat split; simpl; lia.
  - exists OK, 1%nat. repeat split; simpl; lia.
  - exists INFO, 2%nat. repeat split; simpl; lia.
  - exists WARNING, 3%nat. repeat split; simpl; lia.
  - exists FAILURE, 4%nat. repeat split; simpl; lia.
Qed.

Lemma init_dict_level n s :
  levels_ordered C ->
  dict_get (init_dict n) (level_of s) = Some (n + precedence s)%nat.
Proof.
  intros (H1 & H2 & H3 & H4). unfold init_dict.
  destruct s; simpl; repeat (case_decide; try lia); f_equal; lia.
Qed.

Lemma init_spec h :
  levels_ordered C -> heap_ok h ->
  exists h',
    MonitoringResults_init h = (h', inr (length (h_results h))) /\
    heap_ok h' /\
    h_modules h' = h_modules h /\
    length (h_results h') = S (length (h_results h)) /\
    (forall s, bucket h' (length (h_results h)) (level_of s) = Some []) /\
    (forall r k, (r < length (h_results h))%nat ->
       bucket h' r k = bucket h r k).
Proof.
  intros Hlv Hok. exists (init_heap h).
  assert (Hnew : forall r o, h_results (init_heap h) !! r = Some o ->
    h_results h !! r = Some o /\ (r < length (h_results h))%nat \/
    r = length (h_results h) /\ o = {| logs := init_dict (length (h_lists h)) |}).
  { intros r o. simpl. intros Hl.
    apply lookup_app_Some in Hl as [Hl|[Hge Hl]].
    - left. split; [done|]. by eapply lookup_lt_Some.
    - right. apply list_lookup_singleton_Some in Hl as [Hz ->].
      split; [lia|done]. }
  split; [by apply init_eq|]. split; [|split; [done|split; [|split]]].
  - split.
    + intros r o Hr. destruct (Hnew _ _ Hr) as [[Hr' _]|[_ ->]].
      * by eapply ok_keys.
      * done.
    + intros r o k l Hr Hl. simpl. rewrite length_app. simpl.
      destruct (Hnew _ _ Hr) as [[Hr' _]|[_ ->]].
      * pose proof (ok_alloc _ Hok _ _ _ _ Hr' Hl). lia.
      * simpl in Hl. apply init_dict_get in Hl as (s & i & _ & -> & ->); auto.
        destruct s; simpl; lia.
    + intros r1 r2 o1 o2 k1 k2 l Hr1 Hr2 Hl1 Hl2.
      destruct (Hnew _ _ Hr1) as [[Hr1' _]|[-> ->]],
               (Hnew _ _ Hr2) as [[Hr2' _]|[-> ->]].
      * by eapply (ok_sep _ Hok).
      * pose proof (ok_alloc _ Hok _ _ _ _ Hr1' Hl1).
        simpl in Hl2.
        apply init_dict_get in Hl2 as (s & i & _ & -> & ->); auto. lia.
      * pose proof (ok_alloc _ Hok _ _ _ _ Hr2' Hl2).
        simpl in Hl1.
        apply init_dict_get in Hl1 as (s & i & _ & -> & ->); auto. lia.
      * split; [done|]. simpl in Hl1, Hl2.
        apply init_dict_get in Hl1 as (s1 & i1 & -> & -> & ->); auto.
        apply init_dict_get in Hl2 as (s2 & i2 & -> & E & ->); auto.
        f_equal. destruct s1, s2; simpl in E; try done; lia.
    + intros m o Hm. simpl. rewrite length_app. simpl.
      pose proof (ok_mod _ Hok _ _ Hm). lia.
    + intros *. simpl. by apply (ok_own _ Hok).
  - simpl. rewrite length_app. simpl. lia.
  - intros s. unfold bucket, init_heap. cbn [h_results h_lists].
    rewrite list_lookup_middle by done. cbn [logs].
    rewrite init_dict_level by done.
    rewrite lookup_app_r by lia.
    replace (length (h_lists h) + precedence s - length (h_lists h))%nat
      with (precedence s) by lia.
    by destruct s.
  - intros r k Hr. unfold bucket. simpl.
    rewrite lookup_app_l by done.
    destruct (h_results h !! r) as [o|] eqn:Ho; [|done].
    destruct (dict_get (logs o) k) as [l|] eqn:Hl; [|done].
    apply lookup_app_l. by eapply ok_alloc.
Qed.

(** ** Reading a log *)

Lemma logs_at_spec h r k xs :
  bucket h r k = Some xs -> logs_at r k h = (h, inr xs).
Proof.
  unfold bucket, logs_at, bind, get_logs, dict_getitem, list_read, ret.
  destruct (h_results h !! r) as [o|]; [|done].
  destruct (dict_get (logs o) k) as [l|]; [|done].
  by intros ->.
Qed.

Lemma get_messages_spec h r k xs :
  bucket h r k = Some xs ->
  exists l, get_messages r k h = (h, inr l) /\ h_lists h !! l = Some xs.
Proof.
  unfold bucket, get_messages, bind, get_logs, dict_getitem, ret.
  destruct (h_results h !! r) as [o|]; [|done].
  destruct (dict_get (logs o) k) as [l|]; [|done].
  intros Hl. by exists l.
Qed.

Lemma bucket_messages h r s :
  heap_ok h -> (r < length (h_results h))%nat ->
  bucket h r (level_of s) = Some (messages h r s).
Proof.
  intros Hok Hr. unfold messages.
  by destruct (bucket_is_Some h r s Hok Hr) as [xs ->].
Qed.

Lemma collect_messages_spec h r : forall ss output,
  heap_ok h -> (r < length (h_results h))%nat ->
  collect_messages r (map level_of ss) output h =
  (h, inr (output ++ flat_map (fun s => tagged s (messages h r s)) ss)).
Proof.
  induction ss as [|s ss IH]; intros output Hok Hr; simpl.
  - unfold ret. by rewrite app_nil_r.
  - unfold bind.
    rewrite (logs_at_spec _ _ _ _ (bucket_messages h r s Hok Hr)).
    rewrite IH by done. by rewrite <- app_assoc.
Qed.

Lemma get_all_messages_eq h r :
  heap_ok h -> (r < length (h_results h))%nat ->
  get_all_messages r h =
  (h, inr (sort_desc
             (flat_map (fun s => tagged s (messages h r s)) all_severities))).
Proof.
  intros Hok Hr. unfold get_all_messages, bind, get_logs.
  destruct (h_results h !! r) as [o|] eqn:Ho;
    [|apply lookup_ge_None in Ho; lia].
  rewrite (ok_keys _ Hok _ _ Ho).
  change standard_keys with (map level_of all_severities).
  by rewrite collect_messages_spec.
Qed.

(** ** The stable descending sort *)

Lemma insert_desc_perm m l : Permutation (insert_desc m l) (m :: l).
Proof.
  induction l as [|m' l IH]; simpl; [done|].
  destruct (level m <? level m'); [|done].
  rewrite IH. apply perm_swap.
Qed.

Lemma sort_desc_perm l : Permutation (sort_desc l) l.
Proof.
  induction l as [|m l IH]; simpl; [done|].
  rewrite insert_desc_perm. by constructor.
Qed.

Lemma insert_desc_sorted m l :
  StronglySorted level_ge l -> StronglySorted level_ge (insert_desc m l).
Proof.
  induction 1 as [|m' l Hs IH Hall]; simpl.
  - repeat constructor.
  - destruct (Z.ltb_spec (level m) (level m')) as [Hlt|Hge].
    + constructor; [done|].
      rewrite Forall_forall. intros x Hx.
      rewrite insert_desc_perm in Hx. apply elem_of_cons in Hx as [->|Hx].
      * unfold level_ge. lia.
      * rewrite Forall_forall in Hall. auto.
    + constructor; [by constructor|].
      constructor; [done|].
      eapply Forall_impl; [exact Hall|].
      unfold level_ge. intros; simpl in *; lia.
Qed.

Lemma sort_desc_sorted l : StronglySorted level_ge (sort_desc l).
Proof.
  induction l; simpl; [constructor|by apply insert_desc_sorted].
Qed.

Lemma insert_desc_filter k m l :
  filter (fun x => level x = k) (insert_desc m l) =
  filter (fun x => level x = k) (m :: l).
Proof.
  induction l as [|m' l IH]; simpl; [done|].
  destruct (Z.ltb_spec (level m) (level m')) as [Hlt|Hge]; [|done].
  rewrite filter_cons, IH, !filter_cons.
  repeat case_decide; try done; lia.
Qed.

Lemma sort_desc_filter k l :
  filter (fun x => level x = k) (sort_desc l) =
  filter (fun x => level x = k) l.
Proof.
  induction l as [|m l IH]; simpl; [done|].
  by rewrite insert_desc_filter, !filter_cons, IH.
Qed.

Lemma filter_tagged_same s xs :
  filter (fun x => level x = level_of s) (tagged s xs) = tagged s xs.
Proof.
  induction xs as [|x xs IH]; [done|].
  unfold tagged in *. simpl. rewrite filter_cons. simpl.
  case_decide; [|done]. by rewrite IH.
Qed.

Lemma filter_tagged_other s s' xs :
  level_of s' <> level_of s ->
  filter (fun x => level x = level_of s) (tagged s' xs) = [].
Proof.
  intros Hne. induction xs as [|x xs IH]; [done|].
  unfold tagged in *. simpl. rewrite filter_cons. simpl.
  case_decide; [done|]. by rewrite IH.
Qed.

(** ** Module instances *)

Lemma extends_refl h : extends h h.
Proof. split; [exists []; by rewrite app_nil_r|split; [lia|done]]. Qed.

Lemma extends_trans h1 h2 h3 : extends h1 h2 -> extends h2 h3 -> extends h1 h3.
Proof.
  intros ([s1 E1] & L1 & B1) ([s2 E2] & L2 & B2).
  split; [|split].
  - exists (s1 ++ s2). by rewrite E2, E1, app_assoc.
  - lia.
  - intros r k Hr. rewrite B2 by lia. by apply B1.
Qed.

Lemma fresh_module_extends h h' m c :
  heap_ok h -> extends h h' -> fresh_module h m c -> fresh_module h' m c.
Proof.
  intros Hok ([suf E] & L & B) (o & Hm & Hc & Hb).
  exists o. split; [|split; [done|]].
  - rewrite E. by apply lookup_app_l_Some.
  - intros s. rewrite B; [done|]. by eapply ok_mod.
Qed.

Lemma Monitoring_init_spec h c :
  levels_ordered C -> heap_ok h ->
  exists h',
    Monitoring_init c h = (h', inr (length (h_modules h))) /\
    heap_ok h' /\ extends h h' /\
    length (h_modules h') = S (length (h_modules h)) /\
    h_modules h' !! length (h_modules h) =
      Some {| class_of := c; active_test := None; failed := false;
              _results := length (h_results h) |} /\
    fresh_module h' (length (h_modules h)) c.
Proof.
  intros Hlv Hok.
  destruct (init_spec h Hlv Hok) as (h1 & Hrun & Hok1 & Hm1 & Hl1 & Hnew & Hold).
  pose (o := {| class_of := c; active_test := None; failed := false;
                _results := length (h_results h) |}).
  exists {| h_lists := h_lists h1; h_results := h_results h1;
            h_modules := h_modules h1 ++ [o] |}.
  assert (Hlook : (h_modules h1 ++ [o]) !! length (h_modules h) = Some o).
  { rewrite <- Hm1. by apply list_lookup_middle. }
  split; [|split; [|split; [|split; [|split]]]].
  - unfold Monitoring_init, bind, module_new. rewrite Hrun. simpl.
    by rewrite Hm1.
  - destruct Hok1 as [K A S' Mo O]. split; simpl; auto.
    + intros m o' Hm. apply lookup_app_Some in Hm as [Hm|[_ Hm]]; [eauto|].
      apply list_lookup_singleton_Some in Hm as [_ <-]. simpl. lia.
    + intros m1 m2 o1 o2 H1 H2 Heq.
      apply lookup_app_Some in H1 as [H1|[G1 H1]];
        apply lookup_app_Some in H2 as [H2|[G2 H2]].
      * eauto.
      * apply list_lookup_singleton_Some in H2 as [_ <-]. simpl in Heq.
        rewrite Hm1 in H1. pose proof (ok_mod _ Hok _ _ H1). lia.
      * apply list_lookup_singleton_Some in H1 as [_ <-]. simpl in Heq.
        rewrite Hm1 in H2. pose proof (ok_mod _ Hok _ _ H2). lia.
      * apply list_lookup_singleton_Some in H1 as [Z1 _].
        apply list_lookup_singleton_Some in H2 as [Z2 _]. lia.
  - split; [|split]; simpl.
    + exists [o]. by rewrite Hm1.
    + lia.
    + intros r k Hr. by apply Hold.
  - simpl. rewrite length_app, Hm1. simpl. lia.
  - done.
  - exists o. split; [done|split; [done|]]. intros s. apply Hnew.
Qed.

Lemma exec_stmt_log h m o st s msg :
  h_modules h !! m = Some o -> stmt_log st = Some (s, msg) ->
  exec_stmt m st h = log (_results o) (level_of s) msg h.
Proof.
  intros Hm Hst.
  destruct st; simpl in Hst; simplify_eq; simpl;
    unfold log_default, log_ok, log_info, log_warning, log_failure,
      bind, get_module; by rewrite Hm.
Qed.

Lemma messages_bucket h r s xs :
  bucket h r (level_of s) = Some xs -> messages h r s = xs.
Proof. unfold messages. by intros ->. Qed.

Lemma exec_script_spec m o : forall p h,
  levels_ordered C -> heap_ok h -> h_modules h !! m = Some o ->
  exists h',
    exec_script m p h =
      (h', match script_outcome p with Some e => inl e | None => inr tt end) /\
    same_shape h h' /\
    (forall s, bucket h' (_results o) (level_of s) =
       Some (messages h (_results o) s ++ script_messages p s)) /\
    (forall r k, r <> _results o -> bucket h' r k = bucket h r k).
Proof.
  intros p h Hlv. revert h.
  induction p as [|st p IH]; intros h Hok Hm.
  - exists h. simpl. split; [done|split; [apply same_shape_refl|split]].
    + intros s. rewrite app_nil_r. apply bucket_messages; [done|].
      by eapply ok_mod.
    + done.
  - destruct (stmt_log st) as [[s0 msg]|] eqn:Hst.
    + pose proof (bucket_messages h (_results o) s0 Hok
        (ok_mod _ Hok _ _ Hm)) as Hb.
      destruct (log_spec h _ _ msg _ Hok Hb) as (h1 & Hrun & Hsh & Hb1 & Hfr).
      assert (Hok1 : heap_ok h1) by (by eapply heap_ok_same_shape).
      assert (Hm1 : h_modules h1 !! m = Some o).
      { destruct Hsh as (_ & -> & _). done. }
      destruct (IH h1 Hok1 Hm1) as (h2 & Hrun2 & Hsh2 & Hb2 & Hfr2).
      exists h2. split; [|split; [|split]].
      * simpl. unfold bind.
        rewrite (exec_stmt_log _ _ _ _ _ _ Hm Hst), Hrun, Hrun2.
        by destruct st.
      * by eapply same_shape_trans.
      * intros s. rewrite Hb2. f_equal. simpl. rewrite Hst.
        case_decide as Hs.
        -- subst s0. rewrite (messages_bucket _ _ _ _ Hb1).
           by rewrite <- app_assoc.
        -- f_equal. unfold messages. rewrite Hfr; [done|].
           intros [= E]. apply Hs. by apply level_of_inj.
      * intros r k Hr. rewrite Hfr2 by done. apply Hfr. congruence.
    + destruct st; simpl in Hst; try done.
      exists h. simpl. split; [done|split; [apply same_shape_refl|split]].
      * intros s. rewrite app_nil_r. apply bucket_messages; [done|].
        by eapply ok_mod.
      * done.
Qed.

Lemma run_spec h m o device :
  levels_ordered C -> heap_ok h -> h_modules h !! m = Some o ->
  exists h',
    run m device h =
      (h', match script_outcome (cls_get (class_of o) device) with
           | Some e => inl e
           | None => inr (_results o)
           end) /\
    same_shape h h' /\
    (forall s, bucket h' (_results o) (level_of s) =
       Some (messages h (_results o) s ++
             script_messages (cls_get (class_of o) device) s)) /\
    (forall r k, r <> _results o -> bucket h' r k = bucket h r k).
Proof.
  intros Hlv Hok Hm.
  destruct (exec_script_spec m o (cls_get (class_of o) device) h Hlv Hok Hm)
    as (h' & Hrun & Hsh & Hb & Hfr).
  exists h'. split; [|done].
  unfold run, Monitoring_get, bind, get_module. rewrite Hm, Hrun.
  destruct (script_outcome _); [done|].
  destruct Hsh as (_ & -> & _). by rewrite Hm.
Qed.

(** ** Discovery *)

Lemma Forall2_impl_elem {A B} (P Q : A -> B -> Prop) (l : list A) (k : list B) :
  Forall2 P l k -> (forall x y, x ∈ l -> P x y -> Q x y) -> Forall2 Q l k.
Proof.
  induction 1 as [|x y l k Hxy Hlk IH]; intros Himp; constructor.
  - apply Himp; [apply list_elem_of_here|done].
  - apply IH. intros x' y' Hin. apply Himp. by apply list_elem_of_further.
Qed.

Lemma instantiate_all_spec : forall cs h,
  levels_ordered C -> heap_ok h ->
  exists h',
    instantiate_all cs h =
      (h', inr (seq (length (h_modules h)) (length cs))) /\
    heap_ok h' /\ extends h h' /\
    length (h_modules h') = (length (h_modules h) + length cs)%nat /\
    Forall2 (fresh_module h') (seq (length (h_modules h)) (length cs)) cs.
Proof.
  induction cs as [|c cs IH]; intros h Hlv Hok.
  - exists h. simpl. split; [done|split; [done|split; [apply extends_refl|]]].
    split; [lia|constructor].
  - destruct (Monitoring_init_spec h c Hlv Hok)
      as (h1 & Hrun & Hok1 & Hex1 & Hlen1 & _ & Hfresh).
    destruct (IH h1 Hlv Hok1) as (h2 & Hrun2 & Hok2 & Hex2 & Hlen2 & Hall).
    exists h2. rewrite Hlen1 in *.
    split; [|split; [done|split; [by eapply extends_trans|split; [simpl; lia|]]]].
    + simpl. unfold bind. by rewrite Hrun, Hrun2.
    + simpl. constructor; [|done].
      by apply (fresh_module_extends h1 h2).
Qed.

Lemma get_monitoring_loop_spec : forall packages h module_list,
  levels_ordered C -> heap_ok h ->
  exists h',
    get_monitoring_loop packages module_list h =
      (h', inr (module_list ++
                seq (length (h_modules h)) (length (concat packages)))) /\
    heap_ok h' /\ extends h h' /\
    Forall2 (fresh_module h')
      (seq (length (h_modules h)) (length (concat packages)))
      (concat packages).
Proof.
  induction packages as [|members packages IH]; intros h module_list Hlv Hok.
  - exists h. simpl. unfold ret. rewrite app_nil_r.
    split; [done|split; [done|split; [apply extends_refl|constructor]]].
  - destruct (instantiate_all_spec members h Hlv Hok)
      as (h1 & Hrun & Hok1 & Hex1 & Hlen1 & Hall1).
    destruct (IH h1
      (module_list ++ seq (length (h_modules h)) (length members)) Hlv Hok1)
      as (h2 & Hrun2 & Hok2 & Hex2 & Hall2).
    exists h2. simpl. rewrite length_app, seq_app.
    split; [|split; [done|split; [by eapply extends_trans|]]].
    + unfold bind. rewrite Hrun, Hrun2, Hlen1. by rewrite <- app_assoc.
    + apply Forall2_app.
      * eapply Forall2_impl; [exact Hall1|].
        intros m c Hf. by apply (fresh_module_extends h1 h2).
      * by rewrite <- Hlen1.
Qed.

(** ** Aggregation *)

Lemma get_loop_spec device : forall ms cs h acc,
  levels_ordered C -> heap_ok h ->
  (acc < length (h_results h))%nat ->
  Forall2 (fresh_module h) ms cs -> NoDup ms ->
  (forall m o, m ∈ ms -> h_modules h !! m = Some o -> _results o <> acc) ->
  exists h',
    get_loop acc ms device h =
      (h', match first_failure device cs with
           | Some e => inl e
           | None => inr acc
           end) /\
    (first_failure device cs = None ->
     forall s, bucket h' acc (level_of s) =
       Some (messages h acc s ++
             concat (map (fun c => script_messages (cls_get c device) s) cs))).
Proof.
  induction ms as [|m ms IH]; intros cs h acc Hlv Hok Hacc Hall Hnd Hne.
  - apply Forall2_nil_inv_l in Hall as ->. exists h. simpl.
    split; [done|]. intros _ s. rewrite app_nil_r.
    by apply bucket_messages.
  - apply Forall2_cons_inv_l in Hall as (c & cs' & Hfresh & Hall & ->).
    apply NoDup_cons in Hnd as [Hm Hnd].
    destruct Hfresh as (o & Ho & <- & Hempty).
    destruct (run_spec h m o device Hlv Hok Ho)
      as (h1 & Hrun & Hsh1 & Hb1 & Hfr1).
    simpl. unfold bind. rewrite Hrun.
    destruct (script_outcome (cls_get (class_of o) device)) as [e|] eqn:Hout.
    { exists h1. split; [done|]. intros [=]. }
    assert (Hok1 : heap_ok h1) by (by eapply heap_ok_same_shape).
    assert (Hro : _results o <> acc)
      by (apply (Hne m); [apply list_elem_of_here|done]).
    pose proof Hsh1 as (Hr1 & Hm1 & _).
    destruct (add_spec h1 acc (_results o)) as (h2 & Hadd & Hsh2 & Hb2 & Hfr2);
      auto.
    { by rewrite Hr1. }
    { rewrite Hr1. by eapply ok_mod. }
    pose proof Hsh2 as (Hr2 & Hm2 & _).
    assert (Hok2 : heap_ok h2) by (by eapply heap_ok_same_shape).
    rewrite Hadd.
    destruct (IH cs' h2 acc) as (h3 & Hloop & Hb3); auto.
    { by rewrite Hr2, Hr1. }
    { eapply Forall2_impl_elem; [exact Hall|].
      intros m' c' Hin (o' & Ho' & Hc' & He').
      exists o'. rewrite Hm2, Hm1. split; [done|split; [done|]].
      intros s. rewrite Hfr2, Hfr1; [done| |].
      - intros E. assert (m' = m) by (by eapply (ok_own _ Hok)).
        by subst.
      - apply (Hne m'); [by apply list_elem_of_further|done]. }
    { intros m' o' Hin. rewrite Hm2, Hm1. apply Hne.
      by apply list_elem_of_further. }
    exists h3. split; [done|]. intros Hnone s.
    rewrite Hb3 by done. f_equal.
    simpl. rewrite app_assoc. f_equal.
    apply messages_bucket. apply Hb2.
    + rewrite Hfr1 by done. by apply bucket_messages.
    + rewrite Hb1. by rewrite (messages_bucket _ _ _ _ (Hempty s)).
Qed.

Lemma get_spec h packages device :
  levels_ordered C -> heap_ok h ->
  exists h' r,
    get packages device h =
      (h', match first_failure device (concat packages) with
           | Some e => inl e
           | None => inr r
           end) /\
    (first_failure device (concat packages) = None ->
     forall s, bucket h' r (level_of s) =
       Some (concat (map (fun c => script_messages (cls_get c device) s)
                         (concat packages)))).
Proof.
  intros Hlv Hok.
  destruct (get_monitoring_loop_spec packages h [] Hlv Hok)
    as (h1 & Hrun1 & Hok1 & Hex1 & Hall1).
  destruct (init_spec h1 Hlv Hok1)
    as (h2 & Hrun2 & Hok2 & Hm2 & Hl2 & Hnew & Hold).
  set (ms := seq (length (h_modules h)) (length (concat packages))) in *.
  destruct (get_loop_spec device ms (concat packages) h2
    (length (h_results h1))) as (h3 & Hrun3 & Hb3); auto.
  { lia. }
  { eapply Forall2_impl; [exact Hall1|].
    intros m c (o & Ho & Hc & He). exists o. rewrite Hm2.
    split; [done|split; [done|]]. intros s. rewrite Hold; [done|].
    by eapply ok_mod. }
  { apply NoDup_seq. }
  { intros m o _. rewrite Hm2. intros Ho.
    pose proof (ok_mod _ Hok1 _ _ Ho). lia. }
  exists h3, (length (h_results h1)). split.
  - unfold get, get_monitoring, bind. by rewrite Hrun1, Hrun2.
  - intros Hnone s. rewrite Hb3 by done.
    by rewrite (messages_bucket _ _ _ _ (Hnew s)).
Qed.

(** ** The invariant holds of every store the constructors build *)

Lemma heap_ok_MonitoringResults_init h :
  levels_ordered C -> heap_ok h -> heap_ok (MonitoringResults_init h).1.
Proof.
  intros Hlv Hok.
  destruct (init_spec h Hlv Hok) as (h' & Hrun & Hok' & _).
  by rewrite Hrun.
Qed.

Lemma heap_ok_Monitoring_init h c :
  levels_ordered C -> heap_ok h -> heap_ok (Monitoring_init c h).1.
Proof.
  intros Hlv Hok.
  destruct (Monitoring_init_spec h c Hlv Hok) as (h' & Hrun & Hok' & _).
  by rewrite Hrun.
Qed.

Lemma log_same_shape h r k m : same_shape h (log r k m h).1.
Proof.
  unfold log, bind, get_logs, dict_getitem, list_append, list_read,
    list_write, ret, raise, bind.
  destruct (h_results h !! r) as [o|]; [|apply same_shape_refl].
  destruct (dict_get (logs o) k) as [l|]; [|apply same_shape_refl]. simpl.
  destruct (h_lists h !! l); [|apply same_shape_refl].
  repeat split; simpl. by rewrite length_insert.
Qed.

Lemma heap_ok_log_all r : forall calls h,
  heap_ok h -> heap_ok (log_all r calls h).1.
Proof.
  induction calls as [|[s m] calls IH]; intros h Hok; [done|].
  simpl. unfold bind.
  pose proof (heap_ok_same_shape _ _ Hok (log_same_shape h r (level_of s) m))
    as Hok1.
  destruct (log r (level_of s) m h) as [h1 [e|[]]]; [done|].
  by apply IH.
Qed.

(** * The claims *)

(** Support for C1: [log_failure] writes to list objects only; no field of
    any module instance, [failed] included, is assigned. *)
Lemma log_failure_modules_unchanged h m msg :
  h_modules (log_failure m msg h).1 = h_modules h.
Proof.
  unfold log_failure, log, bind, get_module, get_logs, dict_getitem,
    list_append, list_read, list_write, ret, raise, bind.
  destruct (h_modules h !! m) as [o|]; [|done].
  destruct (h_results h !! _results o) as [r|]; [|done].
  destruct (dict_get (logs r) LOG_FAILURE) as [l|]; [|done]. simpl.
  destruct (h_lists h !! l); done.
Qed.

(** C2: [get_worst_message] returns the first text of the most severe
    non-empty bucket, tagged with that bucket's level, under the precedence
    FAILURE > WARNING > INFO > OK > DEFAULT; when all five buckets are empty
    it returns the message (LOG_DEFAULT, ""), never an absent result. *)
Theorem get_worst_message_most_severe h r :
  levels_ordered C -> heap_ok h -> (r < length (h_results h))%nat ->
  exists m,
    get_worst_message r h = (h, inr m) /\
    ((exists s rest,
        level m = level_of s /\
        bucket h r (level_of s) = Some (message m :: rest) /\
        forall s', (precedence s < precedence s')%nat ->
                   bucket h r (level_of s') = Some []) \/
     ((forall s, bucket h r (level_of s) = Some []) /\
      m = {| level := LOG_DEFAULT; message := "" |})).
Proof.
  intros Hlv Hok Hr.
  pose proof (bucket_messages h r FAILURE Hok Hr) as HF.
  pose proof (bucket_messages h r WARNING Hok Hr) as HW.
  pose proof (bucket_messages h r INFO Hok Hr) as HI.
  pose proof (bucket_messages h r OK Hok Hr) as HO.
  pose proof (bucket_messages h r DEFAULT Hok Hr) as HD.
  cbn [level_of] in HF, HW, HI, HO, HD.
  unfold get_worst_message, bind.
  rewrite (logs_at_spec _ _ _ _ HF).
  destruct (messages h r FAILURE) as [|x xs].
  2:{ eexists. split; [done|]. left. exists FAILURE, xs.
      split; [done|split; [done|]]. intros []; simpl; lia. }
  rewrite (logs_at_spec _ _ _ _ HW).
  destruct (messages h r WARNING) as [|x xs].
  2:{ eexists. split; [done|]. left. exists WARNING, xs.
      split; [done|split; [done|]]. intros []; simpl; try lia; done. }
  rewrite (logs_at_spec _ _ _ _ HI).
  destruct (messages h r INFO) as [|x xs].
  2:{ eexists. split; [done|]. left. exists INFO, xs.
      split; [done|split; [done|]]. intros []; simpl; try lia; done. }
  rewrite (logs_at_spec _ _ _ _ HO).
  destruct (messages h r OK) as [|x xs].
  2:{ eexists. split; [done|]. left. exists OK, xs.
      split; [done|split; [done|]]. intros []; simpl; try lia; done. }
  rewrite (logs_at_spec _ _ _ _ HD).
  destruct (messages h r DEFAULT) as [|x xs].
  2:{ eexists. split; [done|]. left. exists DEFAULT, xs.
      split; [done|split; [done|]]. intros []; simpl; try lia; done. }
  eexists. split; [done|]. right. split; [|done]. by intros [].
Qed.

(** C3: adding the identity, a value that compares equal to [0] such as
    the integer zero, returns the log itself and leaves the whole store, so
    every bucket, as it was; adding any other value that is not a
    [MonitoringResults] raises [ValueError]. *)
Theorem add_identity_or_invalid h a :
  MonitoringResults_add a (PyInt 0) h = (h, inr a) /\
  (forall v, py_eq_zero v = true ->
     MonitoringResults_add a v h = (h, inr a)) /\
  (forall v, py_eq_zero v = false -> isinstance_MonitoringResults v = None ->
     MonitoringResults_add a v h = (h, inl ValueError)).
Proof.
  split; [done|split].
  - intros v Hz. unfold MonitoringResults_add. by rewrite Hz.
  - intros v Hz Hi. unfold MonitoringResults_add. by rewrite Hz, Hi.
Qed.

(** C6: after any sequence of [log] calls on a new result log,
    [get_messages] at severity [s] returns the list holding exactly the
    texts logged at [s], in call order; texts logged at other severities
    are not in it. *)
Theorem get_messages_after_logs h calls s :
  levels_ordered C -> heap_ok h ->
  exists h1 r h2 l,
    MonitoringResults_init h = (h1, inr r) /\
    log_all r calls h1 = (h2, inr tt) /\
    get_messages r (level_of s) h2 = (h2, inr l) /\
    h_lists h2 !! l = Some (logged_at calls s).
Proof.
  intros Hlv Hok.
  destruct (init_spec h Hlv Hok) as (h1 & Hrun & Hok1 & _ & Hl1 & Hnew & _).
  set (r := length (h_results h)) in *.
  assert (Hr1 : (r < length (h_results h1))%nat) by lia.
  assert (Hgen : forall calls h1, heap_ok h1 -> (r < length (h_results h1))%nat ->
    exists h2, log_all r calls h1 = (h2, inr tt) /\
      forall s, bucket h2 r (level_of s) =
        Some (messages h1 r s ++ logged_at calls s)).
  { clear -Hlv. induction calls as [|[s0 m] calls IH]; intros h1 Hok1 Hr1.
    - exists h1. split; [done|]. intros s. unfold logged_at. simpl.
      rewrite app_nil_r. by apply bucket_messages.
    - pose proof (bucket_messages h1 r s0 Hok1 Hr1) as Hb.
      destruct (log_spec h1 _ _ m _ Hok1 Hb) as (h2 & Hrun & Hsh & Hb2 & Hfr).
      assert (Hok2 : heap_ok h2) by (by eapply heap_ok_same_shape).
      destruct (IH h2 Hok2) as (h3 & Hrun3 & Hb3).
      { destruct Hsh as (-> & _). done. }
      exists h3. split.
      + simpl. unfold bind. by rewrite Hrun.
      + intros s. rewrite Hb3. f_equal. unfold logged_at.
        rewrite filter_cons. simpl. case_decide as Hs.
        * subst s0. rewrite (messages_bucket _ _ _ _ Hb2). simpl.
          by rewrite <- app_assoc.
        * f_equal. unfold messages. rewrite Hfr; [done|].
          intros [= E]. apply Hs. by apply level_of_inj. }
  destruct (Hgen calls h1 Hok1 Hr1) as (h2 & Hrun2 & Hb2).
  specialize (Hb2 s). rewrite (messages_bucket _ _ _ _ (Hnew s)) in Hb2.
  simpl in Hb2.
  destruct (get_messages_spec _ _ _ _ Hb2) as (l & Hget & Hl).
  by exists h1, r, h2, l.
Qed.

Lemma elem_of_all_tagged h r (x : MonitoringMessage) :
  x ∈ flat_map (fun s => tagged s (messages h r s)) all_severities ->
  exists s, level x = level_of s.
Proof.
  rewrite list_elem_of_In, in_flat_map.
  intros (s & _ & Hx). exists s.
  apply list_elem_of_In in Hx. unfold tagged in Hx.
  apply list_elem_of_fmap in Hx as (t & -> & _). done.
Qed.

(** C7: [get_all_messages] returns every message of the log exactly once,
    tagged with the level of its bucket, most severe first; when the FAILURE
    bucket is not empty, the first element carries the FAILURE level. *)
Theorem get_all_messages_descending h r :
  levels_ordered C -> heap_ok h -> (r < length (h_results h))%nat ->
  exists output,
    get_all_messages r h = (h, inr output) /\
    Permutation output
      (flat_map (fun s => tagged s (messages h r s)) all_severities) /\
    StronglySorted (fun m1 m2 => level m2 <= level m1) output /\
    (messages h r FAILURE <> [] ->
     exists m rest, output = m :: rest /\ level m = LOG_FAILURE).
Proof.
  intros Hlv Hok Hr.
  set (L := flat_map (fun s => tagged s (messages h r s)) all_severities).
  exists (sort_desc L).
  split; [by apply get_all_messages_eq|].
  split; [apply sort_desc_perm|].
  split; [apply sort_desc_sorted|].
  intros Hne.
  destruct (messages h r FAILURE) as [|x xs] eqn:HF; [done|].
  assert (Hin : {| level := LOG_FAILURE; message := x |} ∈ sort_desc L).
  { rewrite sort_desc_perm. unfold L. simpl. rewrite HF. simpl.
    rewrite !elem_of_app. do 4 right. apply list_elem_of_here. }
  assert (Hmax : forall y, y ∈ sort_desc L -> level y <= LOG_FAILURE).
  { intros y Hy. rewrite sort_desc_perm in Hy.
    apply elem_of_all_tagged in Hy as [s ->].
    destruct Hlv as (H1 & H2 & H3 & H4). destruct s; simpl; lia. }
  pose proof (sort_desc_sorted L) as Hs.
  destruct (sort_desc L) as [|m rest]; [by apply elem_of_nil in Hin|].
  exists m, rest. split; [done|].
  pose proof (Hmax m (list_elem_of_here _ _)) as Hle.
  apply elem_of_cons in Hin as [Heq|Hin].
  - by rewrite <- Heq.
  - apply StronglySorted_inv in Hs as [_ Hall].
    rewrite Forall_forall in Hall. specialize (Hall _ Hin).
    unfold level_ge in Hall. simpl in Hall. lia.
Qed.

(** C8: for two distinct result logs [a] and [b], each with the five
    standard buckets, [a + b] returns [a] and changes the buckets of [a]
    only: every bucket of [b], and of any log other than [a], holds what it
    held before, and no module instance is touched. *)
Theorem add_changes_left_operand_only h a b :
  levels_ordered C -> heap_ok h -> a <> b ->
  (a < length (h_results h))%nat -> (b < length (h_results h))%nat ->
  exists h',
    MonitoringResults_add a (PyResults b) h = (h', inr a) /\
    (forall k, bucket h' b k = bucket h b k) /\
    (forall r k, r <> a -> bucket h' r k = bucket h r k) /\
    h_modules h' = h_modules h.
Proof.
  intros Hlv Hok Hab Ha Hb.
  destruct (add_spec h a b Hlv Hok Hab Ha Hb) as (h' & Hrun & Hsh & _ & Hfr).
  exists h'. split; [done|split; [|split; [done|]]].
  - intros k. apply Hfr. congruence.
  - by destruct Hsh as (_ & -> & _).
Qed.

(** C10: within each severity [get_all_messages] keeps insertion order:
    the elements of its result that carry the level of [s] are, in order,
    the texts of bucket [s]. *)
Theorem get_all_messages_stable h r s :
  levels_ordered C -> heap_ok h -> (r < length (h_results h))%nat ->
  exists output,
    get_all_messages r h = (h, inr output) /\
    filter (fun m => level m = level_of s) output = tagged s (messages h r s).
Proof.
  intros Hlv Hok Hr. eexists. split; [by apply get_all_messages_eq|].
  rewrite sort_desc_filter. simpl. rewrite !filter_app.
  pose proof (level_of_inj Hlv) as Hinj.
  destruct s;
    repeat first
      [ rewrite filter_tagged_same
      | rewrite filter_tagged_other by (intros E; by apply Hinj in E) ];
    by rewrite ?app_nil_r.
Qed.

Lemma first_failure_none device cs :
  Forall (fun c => script_outcome (cls_get c device) = None) cs ->
  first_failure device cs = None.
Proof.
  induction 1 as [|c cs Hc _ IH]; [done|]. simpl. by rewrite Hc.
Qed.

Lemma first_failure_app device before c after e :
  Forall (fun c => script_outcome (cls_get c device) = None) before ->
  script_outcome (cls_get c device) = Some e ->
  first_failure device (before ++ c :: after) = Some e.
Proof.
  intros Hall Hc. induction Hall as [|c' cs Hc' _ IH]; simpl.
  - by rewrite Hc.
  - by rewrite Hc'.
Qed.

(** C5: [get] instantiates the discovered classes, runs every instance on
    the device in discovery order and adds each returned log to one new
    log: when no [get] method raises, the returned log holds at every
    severity the texts of the modules one after the other; when a module's
    run raises, [get] ends with that exception and returns no log. *)
Theorem get_folds_or_propagates h packages device :
  levels_ordered C -> heap_ok h ->
  (Forall (fun c => script_outcome (cls_get c device) = None)
     (concat packages) ->
   exists h' r,
     get packages device h = (h', inr r) /\
     forall s, bucket h' r (level_of s) =
       Some (concat (map (fun c => script_messages (cls_get c device) s)
                         (concat packages)))) /\
  (forall before c after e,
     concat packages = before ++ c :: after ->
     Forall (fun c => script_outcome (cls_get c device) = None) before ->
     script_outcome (cls_get c device) = Some e ->
     exists h', get packages device h = (h', inl e)).
Proof.
  intros Hlv Hok.
  destruct (get_spec h packages device Hlv Hok) as (h' & r & Hrun & Hb).
  split.
  - intros Hall.
    pose proof (first_failure_none device _ Hall) as Hnone.
    rewrite Hnone in Hrun. exists h', r. split; [done|]. by apply Hb.
  - intros before c after e Heq Hall Hc.
    rewrite Heq, (first_failure_app device _ _ after _ Hall Hc) in Hrun. by exists h'.
Qed.

(** C9: [run] does not reset the instance: a second [run] returns the same
    log object as the first, and that log then holds what it held before
    the first run followed by the texts of the first and of the second
    run. *)
Theorem run_twice_accumulates h m o t1 t2 :
  levels_ordered C -> heap_ok h -> h_modules h !! m = Some o ->
  script_outcome (cls_get (class_of o) t1) = None ->
  script_outcome (cls_get (class_of o) t2) = None ->
  exists h1 h2 r,
    run m t1 h = (h1, inr r) /\
    run m t2 h1 = (h2, inr r) /\
    forall s, bucket h2 r (level_of s) =
      Some (messages h r s ++
            script_messages (cls_get (class_of o) t1) s ++
            script_messages (cls_get (class_of o) t2) s).
Proof.
  intros Hlv Hok Hm H1 H2.
  destruct (run_spec h m o t1 Hlv Hok Hm) as (h1 & R1 & S1 & B1 & _).
  assert (Hok1 : heap_ok h1) by (by apply (heap_ok_same_shape h h1)).
  assert (Hm1 : h_modules h1 !! m = Some o)
    by (by destruct S1 as (_ & -> & _)).
  destruct (run_spec h1 m o t2 Hlv Hok1 Hm1) as (h2 & R2 & S2 & B2 & _).
  rewrite H1 in R1. rewrite H2 in R2.
  exists h1, h2, (_results o). split; [done|split; [done|]].
  intros s. rewrite B2, (messages_bucket _ _ _ _ (B1 s)).
  by rewrite <- app_assoc.
Qed.

(** * Further properties of the code *)

(** ** Levels outside the five buckets *)

Lemma dict_get_not_key (d : dict) k :
  k ∉ dict_keys d -> dict_get d k = None.
Proof.
  intros Hk. destruct (dict_get d k) as [l|] eqn:E; [|done].
  by apply dict_get_keys in E.
Qed.

(** X1: in a well-formed store, [log] and [get_messages] at a level that is
    none of the five constants raise [KeyError], and the store is left as it
    was: no bucket is created for the unknown level. *)
Theorem unknown_level_raises_KeyError h r k m :
  heap_ok h -> (r < length (h_results h))%nat -> k ∉ standard_keys ->
  log r k m h = (h, inl KeyError) /\
  get_messages r k h = (h, inl KeyError).
Proof.
  intros Hok Hr Hk.
  destruct (h_results h !! r) as [o|] eqn:Ho;
    [|apply lookup_ge_None in Ho; lia].
  assert (Hg : dict_get (logs o) k = None).
  { apply dict_get_not_key. by rewrite (ok_keys _ Hok _ _ Ho). }
  unfold log, get_messages, bind, get_logs, dict_getitem, raise.
  by rewrite Ho, Hg.
Qed.

(** X2: a successful [log] appends the text at the end of the bucket it
    addresses and changes nothing else: every other bucket of the same log
    and every bucket of every other log holds what it held, and no
    dictionary and no module instance is touched. *)
Theorem log_changes_one_bucket h r s m :
  heap_ok h -> (r < length (h_results h))%nat ->
  exists h',
    log r (level_of s) m h = (h', inr tt) /\
    bucket h' r (level_of s) = Some (messages h r s ++ [m]) /\
    (forall r' k', (r', k') <> (r, level_of s) ->
       bucket h' r' k' = bucket h r' k') /\
    h_results h' = h_results h /\ h_modules h' = h_modules h.
Proof.
  intros Hok Hr.
  destruct (log_spec h r (level_of s) m _ Hok (bucket_messages h r s Hok Hr))
    as (h' & Hrun & (Hres & Hmod & _) & Hb & Hfr).
  by exists h'.
Qed.

(** X3: [get_messages] hands out the bucket's list object itself, not a
    copy: a text logged afterwards at that level shows up in the list
    obtained before the call, and a second [get_messages] returns the same
    object. *)
Theorem get_messages_returns_live_list h r s m :
  heap_ok h -> (r < length (h_results h))%nat ->
  exists l old h',
    get_messages r (level_of s) h = (h, inr l) /\
    h_lists h !! l = Some old /\
    log r (level_of s) m h = (h', inr tt) /\
    h_lists h' !! l = Some (old ++ [m]) /\
    get_messages r (level_of s) h' = (h', inr l).
Proof.
  intros Hok Hr.
  destruct (h_results h !! r) as [o|] eqn:Ho;
    [|apply lookup_ge_None in Ho; lia].
  destruct (dict_keys_get (logs o) (level_of s)) as [l Hl].
  { rewrite (ok_keys _ Hok _ _ Ho). apply level_of_standard. }
  destruct (lookup_lt_is_Some_2 (h_lists h) l) as [old Hold].
  { by eapply ok_alloc. }
  exists l, old, (with_lists h (<[l := old ++ [m]]> (h_lists h))).
  unfold get_messages, log, bind, get_logs, dict_getitem, list_append,
    list_read, list_write, ret, bind. simpl.
  rewrite Ho, Hl, Hold. simpl. rewrite ?Ho, ?Hl.
  repeat split; try done.
  apply list_lookup_insert_eq. by eapply lookup_lt_Some.
Qed.

(** ** The queries are read-only *)

Lemma logs_at_readonly h r k : (logs_at r k h).1 = h.
Proof.
  unfold logs_at, bind, get_logs, dict_getitem, list_read, ret, raise.
  destruct (h_results h !! r) as [o|]; [|done].
  destruct (dict_get (logs o) k) as [l|]; [|done]. simpl.
  by destruct (h_lists h !! l).
Qed.

Lemma collect_messages_readonly r : forall keys output h,
  (collect_messages r keys output h).1 = h.
Proof.
  induction keys as [|k keys IH]; intros output h; [done|].
  simpl. unfold bind.
  pose proof (logs_at_readonly h r k) as Hk.
  destruct (logs_at r k h) as [h1 [e|xs]]; simpl in Hk; subst; [done|].
  apply IH.
Qed.

(** X4: the three queries never modify the store, whatever they are called
    on and whether they return or raise: no list, dictionary or module
    instance differs after [get_worst_message], [get_messages] or
    [get_all_messages]. *)
Theorem queries_leave_store_unchanged h r k :
  (get_worst_message r h).1 = h /\
  (get_messages r k h).1 = h /\
  (get_all_messages r h).1 = h.
Proof.
  split; [|split].
  - unfold get_worst_message, bind.
    repeat
      (match goal with
       | |- context [logs_at r ?lv ?h0] =>
           let Hk := fresh "Hk" in
           pose proof (logs_at_readonly h0 r lv) as Hk;
           destruct (logs_at r lv h0) as [? [?|[|? ?]]];
           simpl in Hk; subst; try done
       end).
  - unfold get_messages, bind, get_logs, dict_getitem, ret, raise.
    destruct (h_results h !! r) as [o|]; [|done].
    by destruct (dict_get (logs o) k).
  - unfold get_all_messages, bind, get_logs.
    destruct (h_results h !! r) as [o|]; [|done].
    pose proof (collect_messages_readonly r (dict_keys (logs o)) [] h) as Hc.
    destruct (collect_messages r (dict_keys (logs o)) [] h) as [h1 [e|out]];
      simpl in Hc; by subst.
Qed.

(** ** A new log, and the empty log as identity *)

Lemma worst_of_ext (f g : Severity -> list string) :
  (forall s, f s = g s) -> worst_of f = worst_of g.
Proof. intros E. unfold worst_of. by rewrite !E. Qed.

Lemma get_worst_message_eq h r :
  heap_ok h -> (r < length (h_results h))%nat ->
  get_worst_message r h = (h, inr (worst_of (messages h r))).
Proof.
  intros Hok Hr.
  pose proof (bucket_messages h r FAILURE Hok Hr) as HF.
  pose proof (bucket_messages h r WARNING Hok Hr) as HW.
  pose proof (bucket_messages h r INFO Hok Hr) as HI.
  pose proof (bucket_messages h r OK Hok Hr) as HO.
  pose proof (bucket_messages h r DEFAULT Hok Hr) as HD.
  cbn [level_of] in HF, HW, HI, HO, HD.
  unfold get_worst_message, worst_of, bind.
  rewrite (logs_at_spec _ _ _ _ HF).
  destruct (messages h r FAILURE); [|done].
  rewrite (logs_at_spec _ _ _ _ HW).
  destruct (messages h r WARNING); [|done].
  rewrite (logs_at_spec _ _ _ _ HI).
  destruct (messages h r INFO); [|done].
  rewrite (logs_at_spec _ _ _ _ HO).
  destruct (messages h r OK); [|done].
  rewrite (logs_at_spec _ _ _ _ HD).
  by destruct (messages h r DEFAULT).
Qed.

Lemma messages_after_add h h' a b s :
  heap_ok h ->
  (a < length (h_results h))%nat -> (b < length (h_results h))%nat ->
  (forall k xs ys,
     bucket h a k = Some xs -> bucket h b k = Some ys ->
     bucket h' a k = Some (xs ++ ys)) ->
  messages h' a s = messages h a s ++ messages h b s.
Proof.
  intros Hok Ha Hb Hadd. apply messages_bucket.
  apply Hadd; by apply bucket_messages.
Qed.

(** X5: [MonitoringResults()] yields a new object, at a location no
    existing log has, that holds no message: [get_all_messages] returns the
    empty list and [get_worst_message] the message (LOG_DEFAULT, "").
    The logs and module instances that existed before are as they were. *)
Theorem new_log_is_empty h :
  levels_ordered C -> heap_ok h ->
  exists h' r,
    MonitoringResults_init h = (h', inr r) /\
    r = length (h_results h) /\
    get_all_messages r h' = (h', inr []) /\
    get_worst_message r h' =
      (h', inr {| level := LOG_DEFAULT; message := "" |}) /\
    (forall r' k, (r' < length (h_results h))%nat ->
       bucket h' r' k = bucket h r' k) /\
    h_modules h' = h_modules h.
Proof.
  intros Hlv Hok.
  destruct (init_spec h Hlv Hok) as (h' & Hrun & Hok' & Hm & Hl & Hnew & Hold).
  exists h', (length (h_results h)).
  assert (Hr : (length (h_results h) < length (h_results h'))%nat) by lia.
  assert (Hmsg : forall s, messages h' (length (h_results h)) s = []).
  { intros s. apply messages_bucket, Hnew. }
  split; [done|split; [done|split; [|split; [|done]]]].
  - rewrite get_all_messages_eq by done. simpl. by rewrite !Hmsg.
  - rewrite get_worst_message_eq by done. unfold worst_of. by rewrite !Hmsg.
Qed.

(** X6: a new, empty log is a two-sided identity of [__add__] on contents:
    [a + MonitoringResults()] leaves every bucket of [a] as it was, and
    [MonitoringResults() + a] returns the new log with the contents of [a],
    while [a] itself is unchanged. *)
Theorem add_empty_log_identity h a :
  levels_ordered C -> heap_ok h -> (a < length (h_results h))%nat ->
  exists h1 e,
    MonitoringResults_init h = (h1, inr e) /\
    (exists h2,
       MonitoringResults_add a (PyResults e) h1 = (h2, inr a) /\
       forall s, bucket h2 a (level_of s) = bucket h a (level_of s)) /\
    (exists h2,
       MonitoringResults_add e (PyResults a) h1 = (h2, inr e) /\
       forall s, bucket h2 e (level_of s) = bucket h a (level_of s) /\
                 bucket h2 a (level_of s) = bucket h a (level_of s)).
Proof.
  intros Hlv Hok Ha.
  destruct (init_spec h Hlv Hok) as (h1 & Hrun & Hok1 & Hm & Hl & Hnew & Hold).
  set (e := length (h_results h)) in *.
  assert (He : (e < length (h_results h1))%nat) by lia.
  assert (Ha1 : (a < length (h_results h1))%nat) by lia.
  assert (Hae : a <> e) by lia.
  exists h1, e. split; [done|split].
  - destruct (add_spec h1 a e Hlv Hok1 Hae Ha1 He) as (h2 & R & _ & B & _).
    exists h2. split; [done|]. intros s.
    rewrite <- (Hold a (level_of s) Ha).
    rewrite (B _ _ _ (bucket_messages h1 a s Hok1 Ha1) (Hnew s)).
    rewrite app_nil_r. symmetry. by apply bucket_messages.
  - destruct (add_spec h1 e a Hlv Hok1 (not_eq_sym Hae) He Ha1)
      as (h2 & R & _ & B & F).
    exists h2. split; [done|]. intros s.
    rewrite <- (Hold a (level_of s) Ha). split.
    + rewrite (B _ _ _ (Hnew s) (bucket_messages h1 a s Hok1 Ha1)).
      simpl. symmetry. by apply bucket_messages.
    + by apply F.
Qed.

(** ** Adding a log to itself *)

Lemma add_loop_self a oa : forall ks h,
  h_results h !! a = Some oa ->
  (forall k, k ∈ ks -> is_Some (dict_get (logs oa) k)) ->
  (forall k l, dict_get (logs oa) k = Some l -> (l < length (h_lists h))%nat) ->
  NoDup ks ->
  (forall k1 k2 l,
     dict_get (logs oa) k1 = Some l -> dict_get (logs oa) k2 = Some l ->
     k1 = k2) ->
  exists ls,
    add_loop a a ks h = (with_lists h ls, inr tt) /\
    length ls = length (h_lists h) /\
    (forall l, (forall k, k ∈ ks -> dict_get (logs oa) k <> Some l) ->
       ls !! l = h_lists h !! l) /\
    (forall k l xs, k ∈ ks ->
       dict_get (logs oa) k = Some l -> h_lists h !! l = Some xs ->
       ls !! l = Some (xs ++ xs)).
Proof.
  induction ks as [|k ks IH]; intros h Ha Hks Hal Hnd Hinj.
  - exists (h_lists h). split; [|split; [done|split]].
    + simpl. unfold ret, with_lists. by destruct h.
    + done.
    + intros * Hin. by apply elem_of_nil in Hin.
  - apply NoDup_cons in Hnd as [Hk Hnd].
    destruct (Hks k) as [l Hl]; [apply list_elem_of_here|].
    destruct (lookup_lt_is_Some_2 (h_lists h) l) as [xs Hxs]; [eauto|].
    pose (h1 := with_lists h (<[l := xs ++ xs]> (h_lists h))).
    destruct (IH h1) as (ls & Hrun & Hlen & Hframe & Heff); auto.
    { intros k' Hin. apply Hks. by apply list_elem_of_further. }
    { intros k' l' Hl'. simpl. rewrite length_insert. eauto. }
    exists ls. split; [|split; [|split]].
    + simpl. unfold bind.
      rewrite (add_step_eq _ _ _ _ _ _ _ _ _ _ Ha Ha Hl Hl Hxs Hxs).
      fold h1. by rewrite Hrun.
    + rewrite Hlen. simpl. by rewrite length_insert.
    + intros l' Hl'. rewrite Hframe.
      * simpl. apply list_lookup_insert_ne. intros ->.
        by apply (Hl' k); [apply list_elem_of_here|].
      * intros k' Hin. apply Hl'. by apply list_elem_of_further.
    + intros k0 l0 xs0 Hin Hl0 Hxs0.
      apply elem_of_cons in Hin as [->|Hin].
      * assert (l0 = l) by congruence. subst.
        assert (xs0 = xs) by congruence. subst.
        rewrite Hframe.
        -- simpl. apply list_lookup_insert_eq. by eapply lookup_lt_Some.
        -- intros k' Hin Hk'. assert (k' = k) by eauto. by subst.
      * assert (l0 <> l).
        { intros ->. assert (k0 = k) by eauto. by subst. }
        apply (Heff k0 l0); auto. simpl. by rewrite list_lookup_insert_ne.
Qed.

(** X7: [a + a] is not an error and not a no-op: it returns [a] with every
    bucket extended by its own contents, so each text of [a] then occurs
    twice; the other logs and the module instances are unchanged. *)
Theorem add_to_itself_doubles h a :
  levels_ordered C -> heap_ok h -> (a < length (h_results h))%nat ->
  exists h',
    MonitoringResults_add a (PyResults a) h = (h', inr a) /\
    (forall s, bucket h' a (level_of s) =
       Some (messages h a s ++ messages h a s)) /\
    (forall r k, r <> a -> bucket h' r k = bucket h r k) /\
    h_modules h' = h_modules h.
Proof.
  intros Hlv Hok Ha.
  destruct (h_results h !! a) as [oa|] eqn:Hoa;
    [|apply lookup_ge_None in Hoa; lia].
  destruct (add_loop_self a oa (dict_keys (logs oa)) h)
    as (ls & Hrun & Hlen & Hframe & Heff); auto.
  - intros k Hin. by apply dict_keys_get.
  - intros k l Hl. apply (ok_alloc _ Hok _ _ _ _ Hoa Hl).
  - rewrite (ok_keys _ Hok _ _ Hoa). by apply levels_NoDup.
  - intros k1 k2 l H1 H2.
    by destruct (ok_sep _ Hok _ _ _ _ _ _ _ Hoa Hoa H1 H2).
  - exists (with_lists h ls). split; [|split; [|split; [|done]]].
    + unfold MonitoringResults_add. simpl. unfold bind, get_logs.
      by rewrite Hoa, Hrun.
    + intros s. pose proof (bucket_messages h a s Hok Ha) as Hb.
      unfold bucket in *. simpl. rewrite Hoa in *.
      destruct (dict_get (logs oa) (level_of s)) as [l|] eqn:Hl; [|done].
      eapply Heff; eauto. by eapply dict_get_keys.
    + intros r k Hr. unfold bucket. simpl.
      destruct (h_results h !! r) as [o|] eqn:Ho; [|done].
      destruct (dict_get (logs o) k) as [l|] eqn:Hl; [|done].
      apply Hframe. intros k' _ Hk'.
      by destruct (ok_sep _ Hok _ _ _ _ _ _ _ Ho Hoa Hl Hk').
Qed.

(** ** The worst message of a sum *)

Lemma worst_of_app (f g : Severity -> list string) :
  levels_ordered C ->
  level (worst_of (fun s => f s ++ g s)) =
    Z.max (level (worst_of f)) (level (worst_of g)) /\
  (level (worst_of g) < level (worst_of f) ->
   worst_of (fun s => f s ++ g s) = worst_of f) /\
  (level (worst_of f) < level (worst_of g) ->
   worst_of (fun s => f s ++ g s) = worst_of g).
Proof.
  intros (H1 & H2 & H3 & H4). unfold worst_of.
  destruct (f FAILURE), (g FAILURE); simpl;
    try (repeat split; intros; simpl in *; (done || lia)).
  all: destruct (f WARNING), (g WARNING); simpl;
    try (repeat split; intros; simpl in *; (done || lia)).
  all: destruct (f INFO), (g INFO); simpl;
    try (repeat split; intros; simpl in *; (done || lia)).
  all: destruct (f OK), (g OK); simpl;
    try (repeat split; intros; simpl in *; (done || lia)).
  all: destruct (f DEFAULT), (g DEFAULT); simpl;
    repeat split; intros; simpl in *; (done || lia).
Qed.

(** X8: the worst message of [a + b] is the worse of the two worst
    messages: its level is the larger of the levels reported for [a] and for
    [b], and when one of the two is strictly more severe the sum reports
    exactly that message. *)
Theorem worst_message_of_sum h a b :
  levels_ordered C -> heap_ok h -> a <> b ->
  (a < length (h_results h))%nat -> (b < length (h_results h))%nat ->
  exists ma mb h' mab,
    get_worst_message a h = (h, inr ma) /\
    get_worst_message b h = (h, inr mb) /\
    MonitoringResults_add a (PyResults b) h = (h', inr a) /\
    get_worst_message a h' = (h', inr mab) /\
    level mab = Z.max (level ma) (level mb) /\
    (level mb < level ma -> mab = ma) /\
    (level ma < level mb -> mab = mb).
Proof.
  intros Hlv Hok Hab Ha Hb.
  destruct (add_spec h a b Hlv Hok Hab Ha Hb) as (h' & R & S & B & _).
  assert (Hok' : heap_ok h') by (by apply (heap_ok_same_shape h h')).
  assert (Ha' : (a < length (h_results h'))%nat)
    by (by destruct S as (-> & _)).
  exists (worst_of (messages h a)), (worst_of (messages h b)), h',
    (worst_of (fun s => messages h a s ++ messages h b s)).
  rewrite !get_worst_message_eq by done.
  split; [done|split; [done|split; [done|split]]].
  - do 2 f_equal. apply worst_of_ext. intros s.
    by apply messages_after_add.
  - by apply worst_of_app.
Qed.

(** ** The exact result of [get_all_messages] *)

Lemma insert_desc_app_gt m X Y :
  Forall (fun x => level m < level x) X ->
  insert_desc m (X ++ Y) = X ++ insert_desc m Y.
Proof.
  induction 1 as [|x X Hx _ IH]; [done|].
  simpl. apply Z.ltb_lt in Hx. by rewrite Hx, IH.
Qed.

Lemma sort_desc_app A B :
  (forall a b, a ∈ A -> b ∈ B -> level a < level b) ->
  sort_desc (A ++ B) = sort_desc B ++ sort_desc A.
Proof.
  induction A as [|a A IH]; intros Hlt; simpl.
  - by rewrite app_nil_r.
  - rewrite IH.
    + apply insert_desc_app_gt. rewrite Forall_forall. intros x Hx.
      rewrite sort_desc_perm in Hx.
      apply Hlt; [apply list_elem_of_here|done].
    + intros a' b Ha' Hb. apply Hlt; [by apply list_elem_of_further|done].
Qed.

Lemma elem_of_tagged s xs (x : MonitoringMessage) :
  x ∈ tagged s xs -> level x = level_of s.
Proof.
  unfold tagged. intros Hx.
  by apply list_elem_of_fmap in Hx as (t & -> & _).
Qed.

Lemma sort_desc_tagged s xs : sort_desc (tagged s xs) = tagged s xs.
Proof.
  induction xs as [|x xs IH]; [done|].
  change (tagged s (x :: xs))
    with ({| level := level_of s; message := x |} :: tagged s xs).
  simpl. rewrite IH.
  destruct xs as [|y ys]; [done|]. simpl.
  by rewrite Z.ltb_irrefl.
Qed.

Lemma sort_desc_all_tagged (f : Severity -> list string) :
  levels_ordered C ->
  sort_desc (flat_map (fun s => tagged s (f s)) all_severities) =
  tagged FAILURE (f FAILURE) ++ tagged WARNING (f WARNING) ++
  tagged INFO (f INFO) ++ tagged OK (f OK) ++ tagged DEFAULT (f DEFAULT).
Proof.
  intros (H1 & H2 & H3 & H4). simpl. rewrite app_nil_r.
  assert (Hlv : forall s s' (x y : MonitoringMessage) xs ys,
    level_of s < level_of s' -> x ∈ tagged s xs -> y ∈ tagged s' ys ->
    level x < level y).
  { intros s s' x y xs ys Hlt Hx Hy.
    apply elem_of_tagged in Hx, Hy. by rewrite Hx, Hy. }
  rewrite !sort_desc_app, !sort_desc_tagged, <- !app_assoc; [done|..];
    intros x y Hx Hy; rewrite ?elem_of_app in Hy;
    repeat match goal with Hor : _ \/ _ |- _ => destruct Hor as [Hor|Hor] end;
    match goal with
    | Hy' : y ∈ tagged _ _ |- _ => eapply Hlv; [|exact Hx|exact Hy']
    end; simpl; lia.
Qed.

(** X9: [get_all_messages] returns exactly the FAILURE texts, then the
    WARNING, INFO, OK and DEFAULT texts, each group in insertion order and
    tagged with its level. *)
Theorem get_all_messages_exact h r :
  levels_ordered C -> heap_ok h -> (r < length (h_results h))%nat ->
  get_all_messages r h =
  (h, inr (tagged FAILURE (messages h r FAILURE) ++
           tagged WARNING (messages h r WARNING) ++
           tagged INFO (messages h r INFO) ++
           tagged OK (messages h r OK) ++
           tagged DEFAULT (messages h r DEFAULT))).
Proof.
  intros Hlv Hok Hr. rewrite get_all_messages_eq by done.
  by rewrite (sort_desc_all_tagged (messages h r)).
Qed.

(** X10: in the listing of a sum [a + b], within each severity the texts
    of [a] come first and those of [b] after them: selecting the entries of
    one level from [get_all_messages] gives the bucket of [a] followed by
    the bucket of [b]. *)
Theorem get_all_messages_of_sum h a b s :
  levels_ordered C -> heap_ok h -> a <> b ->
  (a < length (h_results h))%nat -> (b < length (h_results h))%nat ->
  exists h' output,
    MonitoringResults_add a (PyResults b) h = (h', inr a) /\
    get_all_messages a h' = (h', inr output) /\
    filter (fun m => level m = level_of s) output =
      tagged s (messages h a s ++ messages h b s).
Proof.
  intros Hlv Hok Hab Ha Hb.
  destruct (add_spec h a b Hlv Hok Hab Ha Hb) as (h' & R & S & B & _).
  assert (Hok' : heap_ok h') by (by apply (heap_ok_same_shape h h')).
  assert (Ha' : (a < length (h_results h'))%nat)
    by (by destruct S as (-> & _)).
  eexists h', _. split; [done|]. split; [by apply get_all_messages_eq|].
  rewrite sort_desc_filter. simpl. rewrite !filter_app.
  rewrite <- (messages_after_add h h' a b s Hok Ha Hb B).
  pose proof (level_of_inj Hlv) as Hinj.
  destruct s;
    repeat first
      [ rewrite filter_tagged_same
      | rewrite filter_tagged_other by (intros E; by apply Hinj in E) ];
    by rewrite ?app_nil_r.
Qed.

(** ** Running a module *)

(** X11: an instance of the base class, whose [get] is not overridden,
    cannot be run: [run] raises [NotImplementedError] and leaves the store
    as it was. *)
Theorem run_without_override_raises h m o device :
  h_modules h !! m = Some o -> class_of o = Monitoring_base ->
  run m device h = (h, inl NotImplementedError).
Proof.
  intros Hm Hc. unfold run, Monitoring_get, bind, get_module.
  by rewrite Hm, Hc.
Qed.

(** X12: when [get] raises after some logging calls, [run] ends with that
    exception and the texts logged before it stay in the instance's log,
    after what the log held already; nothing is rolled back, and the other
    logs are unchanged. *)
Theorem run_keeps_messages_logged_before_raise h m o device e :
  levels_ordered C -> heap_ok h -> h_modules h !! m = Some o ->
  script_outcome (cls_get (class_of o) device) = Some e ->
  exists h',
    run m device h = (h', inl e) /\
    (forall s, bucket h' (_results o) (level_of s) =
       Some (messages h (_results o) s ++
             script_messages (cls_get (class_of o) device) s)) /\
    (forall r k, r <> _results o -> bucket h' r k = bucket h r k).
Proof.
  intros Hlv Hok Hm He.
  destruct (run_spec h m o device Hlv Hok Hm) as (h' & R & _ & B & F).
  rewrite He in R. by exists h'.
Qed.

Lemma exec_stmt_same_shape h m st : same_shape h (exec_stmt m st h).1.
Proof.
  destruct st; simpl;
    unfold log_default, log_ok, log_info, log_warning, log_failure,
      bind, get_module, raise;
    try (destruct (h_modules h !! m) as [o|];
         [apply log_same_shape|apply same_shape_refl]).
  apply same_shape_refl.
Qed.

Lemma exec_script_same_shape m : forall p h,
  same_shape h (exec_script m p h).1.
Proof.
  induction p as [|st p IH]; intros h; [apply same_shape_refl|].
  simpl. unfold bind.
  pose proof (exec_stmt_same_shape h m st) as Hst.
  destruct (exec_stmt m st h) as [h1 [e|[]]]; [done|].
  eapply same_shape_trans; [exact Hst|apply IH].
Qed.

(** X13: [run] only appends to lists that exist: whatever the instance and
    its [get] do, and whether [run] returns or raises, afterwards every
    module instance has the fields it had ([failed] and [active_test]
    included), every log has the same buckets bound to the same list
    objects, and no list object was created. *)
Theorem run_changes_list_contents_only h m device :
  h_modules (run m device h).1 = h_modules h /\
  h_results (run m device h).1 = h_results h /\
  length (h_lists (run m device h).1) = length (h_lists h).
Proof.
  unfold run, Monitoring_get, bind, get_module.
  destruct (h_modules h !! m) as [o|] eqn:Hm; [|done].
  pose proof (exec_script_same_shape m (cls_get (class_of o) device) h)
    as (Hr & Hmo & Hl).
  destruct (exec_script m (cls_get (class_of o) device) h) as [h1 [e|[]]];
    simpl in *; [done|].
  rewrite Hmo, Hm. done.
Qed.

(** X14: [Monitoring.__init__] creates the instance at a new location, with
    [failed] false, no active test, and a result log that is a new object
    with five empty buckets; the instances and the bucket contents that
    existed before are unchanged. *)
Theorem new_instance_owns_new_empty_log h c :
  levels_ordered C -> heap_ok h ->
  exists h',
    Monitoring_init c h = (h', inr (length (h_modules h))) /\
    h_modules h' !! length (h_modules h) =
      Some {| class_of := c; active_test := None; failed := false;
              _results := length (h_results h) |} /\
    (forall s, bucket h' (length (h_results h)) (level_of s) = Some []) /\
    (forall m o, h_modules h !! m = Some o -> h_modules h' !! m = Some o) /\
    (forall r k, (r < length (h_results h))%nat ->
       bucket h' r k = bucket h r k).
Proof.
  intros Hlv Hok.
  destruct (Monitoring_init_spec h c Hlv Hok)
    as (h' & Hrun & _ & ([suf Hsuf] & _ & Hold) & _ & Hlook & (o & Ho & _ & He)).
  exists h'. split; [done|split; [done|split; [|split; [|done]]]].
  - intros s. rewrite Hlook in Ho. injection Ho as <-. apply He.
  - intros m o' Hm. rewrite Hsuf. by apply lookup_app_l_Some.
Qed.

(** ** Discovery *)

(** X15: [get_monitoring] returns one new instance per discovered class, in
    the order of the modules and, within a module, of its classes; every
    returned instance is of its class and has logged nothing, and the
    objects that existed before are unchanged.  Modules without a
    monitoring class contribute no instance. *)
Theorem get_monitoring_instantiates_each_class h packages :
  levels_ordered C -> heap_ok h ->
  exists h' ms,
    get_monitoring packages h = (h', inr ms) /\
    ms = seq (length (h_modules h)) (length (concat packages)) /\
    Forall2 (fresh_module h') ms (concat packages) /\
    (forall m o, h_modules h !! m = Some o -> h_modules h' !! m = Some o) /\
    (forall r k, (r < length (h_results h))%nat ->
       bucket h' r k = bucket h r k).
Proof.
  intros Hlv Hok.
  destruct (get_monitoring_loop_spec packages h [] Hlv Hok)
    as (h' & Hrun & _ & ([suf Hsuf] & _ & Hold) & Hall).
  exists h', (seq (length (h_modules h)) (length (concat packages))).
  split; [done|split; [done|split; [done|split; [|done]]]].
  intros m o Hm. rewrite Hsuf. by apply lookup_app_l_Some.
Qed.

(** ** What [get] leaves behind *)

Lemma instantiate_all_lower : forall cs h,
  levels_ordered C -> heap_ok h ->
  forall m o,
    (length (h_modules h) <= m)%nat ->
    h_modules (instantiate_all cs h).1 !! m = Some o ->
    (length (h_results h) <= _results o)%nat.
Proof.
  induction cs as [|c cs IH]; intros h Hlv Hok m o Hm Ho.
  - simpl in Ho. apply lookup_lt_Some in Ho. lia.
  - destruct (Monitoring_init_spec h c Hlv Hok)
      as (h1 & Hrun & Hok1 & (_ & Hle1 & _) & Hlen1 & Hlook & _).
    destruct (instantiate_all_spec cs h1 Hlv Hok1)
      as (h2 & Hrun2 & _ & ([suf Hsuf] & _ & _) & _ & _).
    pose proof (IH h1 Hlv Hok1 m o) as IH1.
    simpl in Ho. unfold bind in Ho. rewrite Hrun in Ho.
    rewrite Hrun2 in *. simpl in *.
    destruct (decide (m = length (h_modules h))) as [->|Hne].
    + rewrite Hsuf in Ho.
      rewrite (lookup_app_l_Some _ _ _ _ Hlook) in Ho.
      injection Ho as <-. simpl. lia.
    + assert (length (h_results h1) <= _results o)%nat
        by (apply IH1; [lia|done]).
      lia.
Qed.

Lemma get_monitoring_loop_lower : forall packages h module_list,
  levels_ordered C -> heap_ok h ->
  forall m o,
    (length (h_modules h) <= m)%nat ->
    h_modules (get_monitoring_loop packages module_list h).1 !! m = Some o ->
    (length (h_results h) <= _results o)%nat.
Proof.
  induction packages as [|members packages IH];
    intros h module_list Hlv Hok m o Hm Ho.
  - simpl in Ho. apply lookup_lt_Some in Ho. lia.
  - destruct (instantiate_all_spec members h Hlv Hok)
      as (h1 & Hrun & Hok1 & (_ & Hle1 & _) & Hlen1 & _).
    pose proof (instantiate_all_lower members h Hlv Hok m o Hm) as Hlow.
    rewrite Hrun in Hlow. simpl in Hlow.
    set (ml := module_list ++ seq (length (h_modules h)) (length members)).
    destruct (get_monitoring_loop_spec packages h1 ml Hlv Hok1)
      as (h2 & Hrun2 & _ & ([suf Hsuf] & _ & _) & _).
    pose proof (IH h1 ml Hlv Hok1 m o) as IH1.
    simpl in Ho. unfold bind in Ho. rewrite Hrun in Ho. fold ml in Ho.
    rewrite Hrun2 in *. simpl in *.
    destruct (decide (m < length (h_modules h1))%nat) as [Hlt|Hge].
    + apply Hlow. rewrite Hsuf in Ho.
      by rewrite lookup_app_l in Ho.
    + assert (length (h_results h1) <= _results o)%nat
        by (apply IH1; [lia|done]).
      lia.
Qed.

Lemma get_loop_modules device : forall ms cs h acc,
  levels_ordered C -> heap_ok h ->
  (acc < length (h_results h))%nat ->
  Forall2 (fresh_module h) ms cs -> NoDup ms ->
  (forall m o, m ∈ ms -> h_modules h !! m = Some o -> _results o <> acc) ->
  exists h',
    get_loop acc ms device h =
      (h', match first_failure device cs with
           | Some e => inl e
           | None => inr acc
           end) /\
    heap_ok h' /\ same_shape h h' /\
    (forall r k, r <> acc ->
       (forall m o, m ∈ ms -> h_modules h !! m = Some o -> _results o <> r) ->
       bucket h' r k = bucket h r k) /\
    Forall2 (module_logged h' device)
      (take (invoked device cs) ms) (take (invoked device cs) cs) /\
    Forall2 (fresh_module h')
      (drop (invoked device cs) ms) (drop (invoked device cs) cs).
Proof.
  induction ms as [|m ms IH]; intros cs h acc Hlv Hok Hacc Hall Hnd Hne.
  - apply Forall2_nil_inv_l in Hall as ->. exists h. simpl.
    split; [done|split; [done|split; [apply same_shape_refl|]]].
    split; [done|split; constructor].
  - apply Forall2_cons_inv_l in Hall as (c & cs' & Hfresh & Hall & ->).
    apply NoDup_cons in Hnd as [Hm Hnd].
    destruct Hfresh as (o & Ho & <- & Hempty).
    destruct (run_spec h m o device Hlv Hok Ho)
      as (h1 & Hrun & Hsh1 & Hb1 & Hfr1).
    assert (Hok1 : heap_ok h1) by (by apply (heap_ok_same_shape h h1)).
    pose proof Hsh1 as (Hr1 & Hm1 & _).
    assert (Hro : _results o <> acc)
      by (apply (Hne m); [apply list_elem_of_here|done]).
    assert (Hlogged1 : forall s, bucket h1 (_results o) (level_of s) =
      Some (script_messages (cls_get (class_of o) device) s)).
    { intros s. rewrite Hb1. by rewrite (messages_bucket _ _ _ _ (Hempty s)). }
    assert (Hothers : forall m' o', m' ∈ ms -> h_modules h !! m' = Some o' ->
      _results o' <> _results o).
    { intros m' o' Hin Ho' E.
      assert (m' = m) by (by eapply (ok_own _ Hok)). by subst. }
    simpl. unfold bind. rewrite Hrun.
    destruct (script_outcome (cls_get (class_of o) device)) as [e|] eqn:Hout.
    { exists h1. split; [done|split; [done|split; [done|]]].
      split; [|split].
      - intros r k _ Hr. apply Hfr1. intros ->.
        apply (Hr m o); [apply list_elem_of_here|done..].
      - simpl. rewrite take_0. constructor; [|constructor].
        exists o. by rewrite Hm1.
      - simpl. rewrite !drop_0.
        eapply Forall2_impl_elem; [exact Hall|].
        intros m' c' Hin (o' & Ho' & Hc' & He').
        exists o'. rewrite Hm1. split; [done|split; [done|]].
        intros s. rewrite Hfr1; [done|]. by apply (Hothers m'). }
    destruct (add_spec h1 acc (_results o)) as (h2 & Hadd & Hsh2 & Hb2 & Hfr2);
      auto.
    { by rewrite Hr1. }
    { rewrite Hr1. by eapply ok_mod. }
    pose proof Hsh2 as (Hr2 & Hm2 & _).
    assert (Hok2 : heap_ok h2) by (by apply (heap_ok_same_shape h1 h2)).
    rewrite Hadd.
    destruct (IH cs' h2 acc) as (h3 & Hloop & Hok3 & Hsh3 & Hfr3 & Hlog & Hfre);
      auto.
    { by rewrite Hr2, Hr1. }
    { eapply Forall2_impl_elem; [exact Hall|].
      intros m' c' Hin (o' & Ho' & Hc' & He').
      exists o'. rewrite Hm2, Hm1. split; [done|split; [done|]].
      intros s. rewrite Hfr2, Hfr1; [done| |].
      - by apply (Hothers m').
      - apply (Hne m'); [by apply list_elem_of_further|done]. }
    { intros m' o' Hin. rewrite Hm2, Hm1. apply Hne.
      by apply list_elem_of_further. }
    pose proof Hsh3 as (Hr3 & Hm3 & _).
    exists h3. split; [done|split; [done|split]].
    { eapply same_shape_trans; [|exact Hsh3].
      eapply same_shape_trans; [exact Hsh1|exact Hsh2]. }
    split; [|split].
    + intros r k Hracc Hr. rewrite Hfr3, Hfr2, Hfr1; auto.
      * intros ->. apply (Hr m o); [apply list_elem_of_here|done..].
      * intros m' o' Hin. rewrite Hm2, Hm1. intros Ho'.
        apply (Hr m' o'); [by apply list_elem_of_further|done].
    + simpl. constructor; [|done].
      exists o. rewrite Hm3, Hm2, Hm1. split; [done|split; [done|]].
      intros s. rewrite Hfr3, Hfr2; auto.
      intros m' o' Hin. rewrite Hm2, Hm1. intros Ho'.
      by apply (Hothers m').
    + done.
Qed.

Lemma get_full h packages device :
  levels_ordered C -> heap_ok h ->
  exists h' r,
    get packages device h =
      (h', match first_failure device (concat packages) with
           | Some e => inl e
           | None => inr r
           end) /\
    heap_ok h' /\
    (length (h_results h) <= r < length (h_results h'))%nat /\
    (first_failure device (concat packages) = None ->
     forall s, bucket h' r (level_of s) =
       Some (concat (map (fun c => script_messages (cls_get c device) s)
                         (concat packages)))) /\
    (forall r0 k, (r0 < length (h_results h))%nat ->
       bucket h' r0 k = bucket h r0 k) /\
    Forall2 (module_logged h' device)
      (take (invoked device (concat packages))
         (seq (length (h_modules h)) (length (concat packages))))
      (take (invoked device (concat packages)) (concat packages)) /\
    Forall2 (fresh_module h')
      (drop (invoked device (concat packages))
         (seq (length (h_modules h)) (length (concat packages))))
      (drop (invoked device (concat packages)) (concat packages)).
Proof.
  intros Hlv Hok.
  destruct (get_monitoring_loop_spec packages h [] Hlv Hok)
    as (h1 & Hrun1 & Hok1 & (_ & Hle1 & Hold1) & Hall1).
  pose proof (get_monitoring_loop_lower packages h [] Hlv Hok) as Hlow.
  rewrite Hrun1 in Hlow. simpl in Hlow.
  destruct (init_spec h1 Hlv Hok1)
    as (h2 & Hrun2 & Hok2 & Hm2 & Hl2 & Hnew & Hold2).
  set (cs := concat packages) in *.
  set (ms := seq (length (h_modules h)) (length cs)) in *.
  set (acc := length (h_results h1)) in *.
  assert (Hacc : (acc < length (h_results h2))%nat) by lia.
  assert (Hall2 : Forall2 (fresh_module h2) ms cs).
  { eapply Forall2_impl; [exact Hall1|].
    intros m c (o & Ho & Hc & He). exists o. rewrite Hm2.
    split; [done|split; [done|]]. intros s. rewrite Hold2; [done|].
    by eapply ok_mod. }
  assert (Hnd : NoDup ms) by apply NoDup_seq.
  assert (Hne : forall m o, m ∈ ms -> h_modules h2 !! m = Some o ->
    _results o <> acc).
  { intros m o _. rewrite Hm2. intros Ho.
    pose proof (ok_mod _ Hok1 _ _ Ho). unfold acc. lia. }
  destruct (get_loop_spec device ms cs h2 acc Hlv Hok2 Hacc Hall2 Hnd Hne)
    as (h3 & Hrun3 & Hb3).
  destruct (get_loop_modules device ms cs h2 acc Hlv Hok2 Hacc Hall2 Hnd Hne)
    as (h3' & Hrun3' & Hok3 & Hsh3 & Hfr3 & Hlog & Hfre).
  assert (h3' = h3) by congruence. subst h3'.
  pose proof Hsh3 as (Hr3 & _ & _).
  exists h3, acc. split; [|split; [done|split; [|split; [|split; [|done]]]]].
  - unfold get, get_monitoring, bind. by rewrite Hrun1, Hrun2.
  - rewrite Hr3. lia.
  - intros Hnone s. rewrite Hb3 by done.
    by rewrite (messages_bucket _ _ _ _ (Hnew s)).
  - intros r0 k Hr0. rewrite Hfr3.
    + rewrite Hold2 by lia. by apply Hold1.
    + unfold acc. lia.
    + intros m o Hin. rewrite Hm2. intros Ho.
      apply elem_of_seq in Hin.
      assert (length (h_results h) <= _results o)%nat
        by (apply (Hlow m o); [lia|done]).
      lia.
Qed.

(** X16: after [get], whether it returned or raised, the own log of every
    instance that was run holds exactly what its class logged on the
    device: adding a module's log to the combined log never writes to the
    module's log.  The instances behind the first module that raised were
    never run, so their logs are still empty.  Logs that existed before the
    call are unchanged. *)
Theorem get_runs_modules_up_to_first_failure h packages device :
  levels_ordered C -> heap_ok h ->
  exists h' res,
    get packages device h = (h', res) /\
    Forall2 (module_logged h' device)
      (take (invoked device (concat packages))
         (seq (length (h_modules h)) (length (concat packages))))
      (take (invoked device (concat packages)) (concat packages)) /\
    Forall2 (fresh_module h')
      (drop (invoked device (concat packages))
         (seq (length (h_modules h)) (length (concat packages))))
      (drop (invoked device (concat packages)) (concat packages)) /\
    (forall r0 k, (r0 < length (h_results h))%nat ->
       bucket h' r0 k = bucket h r0 k).
Proof.
  intros Hlv Hok.
  destruct (get_full h packages device Hlv Hok)
    as (h' & r & Hrun & _ & _ & _ & Hold & Hlog & Hfre).
  eexists h', _. split; [exact Hrun|done].
Qed.

(** X17: successive aggregations do not share state: [get] builds new
    instances and a new log each time, so a second [get] on the same
    classes and device returns a different log object with the same
    contents as the first, and the log returned first is unchanged by the
    second call. *)
Theorem get_twice_is_independent h packages device :
  levels_ordered C -> heap_ok h ->
  Forall (fun c => script_outcome (cls_get c device) = None)
    (concat packages) ->
  exists h1 r1 h2 r2,
    get packages device h = (h1, inr r1) /\
    get packages device h1 = (h2, inr r2) /\
    r1 <> r2 /\
    forall s,
      bucket h2 r2 (level_of s) =
        Some (concat (map (fun c => script_messages (cls_get c device) s)
                          (concat packages))) /\
      bucket h2 r1 (level_of s) = bucket h2 r2 (level_of s).
Proof.
  intros Hlv Hok Hall.
  pose proof (first_failure_none device _ Hall) as Hnone.
  destruct (get_full h packages device Hlv Hok)
    as (h1 & r1 & Hrun1 & Hok1 & Hr1 & Hb1 & _).
  destruct (get_full h1 packages device Hlv Hok1)
    as (h2 & r2 & Hrun2 & _ & Hr2 & Hb2 & Hold2 & _).
  rewrite Hnone in Hrun1, Hrun2.
  exists h1, r1, h2, r2.
  split; [done|split; [done|split; [lia|]]].
  intros s. split; [by apply Hb2|].
  rewrite Hb2 by done. rewrite Hold2 by lia. by apply Hb1.
Qed.

(** ** The logging primitives of a module *)

(** The primitive a plugin calls to log at severity [s]. *)
Definition log_primitive (s : Severity) : loc -> string -> M unit :=
  match s with
  | DEFAULT => log_default
  | OK => log_ok
  | INFO => log_info
  | WARNING => log_warning
  | FAILURE => log_failure
  end.

(** X18: each of [log_default], [log_ok], [log_info], [log_warning] and
    [log_failure] appends its text to the bucket of its own level in the
    log of the instance it is called on; the four other buckets of that
    log, all other logs and all module instances are unchanged. *)
Theorem log_primitive_appends_to_own_bucket h m o s msg :
  heap_ok h -> h_modules h !! m = Some o ->
  exists h',
    log_primitive s m msg h = (h', inr tt) /\
    bucket h' (_results o) (level_of s) =
      Some (messages h (_results o) s ++ [msg]) /\
    (forall r' k', (r', k') <> (_results o, level_of s) ->
       bucket h' r' k' = bucket h r' k') /\
    h_modules h' = h_modules h.
Proof.
  intros Hok Hm.
  pose proof (ok_mod _ Hok _ _ Hm) as Hr.
  destruct (log_spec h (_results o) (level_of s) msg _ Hok
              (bucket_messages h (_results o) s Hok Hr))
    as (h' & Hrun & (_ & Hmod & _) & Hb & Hfr).
  exists h'. split; [|done].
  destruct s; simpl;
    unfold log_default, log_ok, log_info, log_warning, log_failure,
      bind, get_module; by rewrite Hm.
Qed.

(** ** Display metadata of a message *)

Section Display.

(** The tables [LOG_COLORS] and [LOG_DESCRIPTIONS] of [.constants] are not
    part of the source at hand; they are parameters, as dictionaries from
    level to text. *)
Variables LOG_COLORS LOG_DESCRIPTIONS : list (Z * string).

Fixpoint table_get (t : list (Z * string)) (k : Z) : option string :=
  match t with
  | [] => None
  | (k', v) :: t' => if decide (k' = k) then Some v else table_get t' k
  end.

(** [t[k]] *)
Definition table_getitem (t : list (Z * string)) (k : Z) : exn + string :=
  match table_get t k with
  | Some v => inr v
  | None => inl KeyError
  end.

Definition color (m : MonitoringMessage) : exn + string :=
  table_getitem LOG_COLORS (level m).

Definition description (m : MonitoringMessage) : exn + string :=
  table_getitem LOG_DESCRIPTIONS (level m).

Lemma worst_of_level (f : Severity -> list string) :
  exists s, level (worst_of f) = level_of s.
Proof.
  unfold worst_of.
  destruct (f FAILURE); [|by exists FAILURE].
  destruct (f WARNING); [|by exists WARNING].
  destruct (f INFO); [|by exists INFO].
  destruct (f OK); [|by exists OK].
  destruct (f DEFAULT); by exists DEFAULT.
Qed.

(** X19: when both tables have an entry for each of the five levels, the
    [color] and [description] of the message returned by
    [get_worst_message] and of every message returned by
    [get_all_messages] are defined: rendering a log never raises
    [KeyError]. *)
Theorem display_of_returned_messages_defined h r :
  levels_ordered C -> heap_ok h -> (r < length (h_results h))%nat ->
  (forall s, is_Some (table_get LOG_COLORS (level_of s))) ->
  (forall s, is_Some (table_get LOG_DESCRIPTIONS (level_of s))) ->
  exists worst output,
    get_worst_message r h = (h, inr worst) /\
    get_all_messages r h = (h, inr output) /\
    Forall (fun m => exists c d, color m = inr c /\ description m = inr d)
      (worst :: output).
Proof.
  intros Hlv Hok Hr Hcol Hdesc.
  assert (Hdef : forall (m : MonitoringMessage) s, level m = level_of s ->
    exists c d, color m = inr c /\ description m = inr d).
  { intros m s Hm. destruct (Hcol s) as [c Hc], (Hdesc s) as [d Hd].
    exists c, d. unfold color, description, table_getitem.
    by rewrite Hm, Hc, Hd. }
  eexists _, _.
  split; [by apply get_worst_message_eq|].
  split; [by apply get_all_messages_eq|].
  constructor.
  - destruct (worst_of_level (messages h r)) as [s Hs]. by eapply Hdef.
  - rewrite Forall_forall. intros m Hm. rewrite sort_desc_perm in Hm.
    apply elem_of_all_tagged in Hm as [s Hs]. by eapply Hdef.
Qed.

End Display.

(** ** Associativity of [__add__] *)

Lemma add_self_spec h a :
  levels_ordered C -> heap_ok h -> (a < length (h_results h))%nat ->
  exists h',
    MonitoringResults_add a (PyResults a) h = (h', inr a) /\
    same_shape h h' /\
    (forall s, bucket h' a (level_of s) =
       Some (messages h a s ++ messages h a s)) /\
    (forall r k, r <> a -> bucket h' r k = bucket h r k).
Proof.
  intros Hlv Hok Ha.
  destruct (h_results h !! a) as [oa|] eqn:Hoa;
    [|apply lookup_ge_None in Hoa; lia].
  destruct (add_loop_self a oa (dict_keys (logs oa)) h)
    as (ls & Hrun & Hlen & Hframe & Heff); auto.
  - intros k Hin. by apply dict_keys_get.
  - intros k l Hl. apply (ok_alloc _ Hok _ _ _ _ Hoa Hl).
  - rewrite (ok_keys _ Hok _ _ Hoa). by apply levels_NoDup.
  - intros k1 k2 l H1 H2.
    by destruct (ok_sep _ Hok _ _ _ _ _ _ _ Hoa Hoa H1 H2).
  - exists (with_lists h ls). split; [|split; [|split]].
    + unfold MonitoringResults_add. simpl. unfold bind, get_logs.
      by rewrite Hoa, Hrun.
    + by repeat split.
    + intros s. pose proof (bucket_messages h a s Hok Ha) as Hb.
      unfold bucket in *. simpl. rewrite Hoa in *.
      destruct (dict_get (logs oa) (level_of s)) as [l|] eqn:Hl; [|done].
      eapply Heff; eauto. by eapply dict_get_keys.
    + intros r k Hr. unfold bucket. simpl.
      destruct (h_results h !! r) as [o|] eqn:Ho; [|done].
      destruct (dict_get (logs o) k) as [l|] eqn:Hl; [|done].
      apply Hframe. intros k' _ Hk'.
      by destruct (ok_sep _ Hok _ _ _ _ _ _ _ Ho Hoa Hl Hk').
Qed.

(** C4, as amended: when the left operand [a] is a different object from
    [b] and from [c] ([b] and [c] may be one and the same log),
    [(a + b) + c] and [a + (b + c)], each run from the same store, return a
    log whose bucket at every severity holds the same sequence of texts:
    those of [a], then of [b], then of [c]. *)
Theorem add_associative h a b c :
  levels_ordered C -> heap_ok h ->
  (a < length (h_results h))%nat -> (b < length (h_results h))%nat ->
  (c < length (h_results h))%nat ->
  a <> b -> a <> c ->
  exists hl rl hr rr,
    (let! ab := MonitoringResults_add a (PyResults b) in
     MonitoringResults_add ab (PyResults c)) h = (hl, inr rl) /\
    (let! bc := MonitoringResults_add b (PyResults c) in
     MonitoringResults_add a (PyResults bc)) h = (hr, inr rr) /\
    forall s,
      bucket hl rl (level_of s) =
        Some (messages h a s ++ messages h b s ++ messages h c s) /\
      bucket hr rr (level_of s) = bucket hl rl (level_of s).
Proof.
  intros Hlv Hok Ha Hb Hc Hab Hac.
  destruct (add_spec h a b Hlv Hok Hab Ha Hb) as (h1 & R1 & S1 & B1 & F1).
  pose proof S1 as (Hr1 & _ & _).
  assert (Hok1 : heap_ok h1) by (by apply (heap_ok_same_shape h h1)).
  destruct (add_spec h1 a c Hlv Hok1 Hac) as (h2 & R2 & S2 & B2 & F2);
    [by rewrite Hr1..|].
  assert (Hleft : forall s, bucket h2 a (level_of s) =
    Some (messages h a s ++ messages h b s ++ messages h c s)).
  { intros s. rewrite app_assoc.
    apply B2; [apply B1; by apply bucket_messages|].
    rewrite F1 by congruence. by apply bucket_messages. }
  assert (Hright : exists h1' h2',
    MonitoringResults_add b (PyResults c) h = (h1', inr b) /\
    MonitoringResults_add a (PyResults b) h1' = (h2', inr a) /\
    forall s, bucket h2' a (level_of s) =
      Some (messages h a s ++ messages h b s ++ messages h c s)).
  { destruct (decide (b = c)) as [<-|Hbc].
    - destruct (add_self_spec h b Hlv Hok Hb) as (h1' & R1' & S1' & B1' & F1').
      pose proof S1' as (Hr1' & _ & _).
      assert (Hok1' : heap_ok h1') by (by apply (heap_ok_same_shape h h1')).
      destruct (add_spec h1' a b Hlv Hok1' Hab)
        as (h2' & R2' & S2' & B2' & F2'); [by rewrite Hr1'..|].
      exists h1', h2'. split; [done|split; [done|]]. intros s.
      apply B2'; [|by apply B1'].
      rewrite F1' by done. by apply bucket_messages.
    - destruct (add_spec h b c Hlv Hok Hbc Hb Hc)
        as (h1' & R1' & S1' & B1' & F1').
      pose proof S1' as (Hr1' & _ & _).
      assert (Hok1' : heap_ok h1') by (by apply (heap_ok_same_shape h h1')).
      destruct (add_spec h1' a b Hlv Hok1' Hab)
        as (h2' & R2' & S2' & B2' & F2'); [by rewrite Hr1'..|].
      exists h1', h2'. split; [done|split; [done|]]. intros s.
      apply B2'.
      + rewrite F1' by done. by apply bucket_messages.
      + apply B1'; by apply bucket_messages. }
  destruct Hright as (h1' & h2' & R1' & R2' & Hr).
  exists h2, a, h2', a. unfold bind. rewrite R1, R2, R1', R2'.
  split; [done|split; [done|]]. intros s.
  split; [apply Hleft|]. by rewrite Hr, Hleft.
Qed.

End Model.

(** * Concrete runs *)

#[local] Existing Instance netbox_levels.

Lemma netbox_levels_ordered : levels_ordered netbox_levels.
Proof. repeat split. Qed.

(** Three plugin classes, checked against a device named by a string. *)
Definition ping_check : @MonitoringClass string :=
  {| cls_module := "ping"; cls_name := "PingCheck";
     cls_get := fun _ => [LogOk "ping succeeded"; LogWarning "high latency"] |}.

Definition link_check : @MonitoringClass string :=
  {| cls_module := "link"; cls_name := "LinkCheck";
     cls_get := fun _ => [LogFailure "unreachable"] |}.

Definition broken_check : @MonitoringClass string :=
  {| cls_module := "broken"; cls_name := "BrokenCheck";
     cls_get := fun _ => [LogInfo "probing"; Raise (RuntimeError "boom")] |}.

(** One log after [log_ok], [log_warning], [log_failure]. *)
Definition scenario_calls : list (Severity * string) :=
  [(OK, "ping succeeded"); (WARNING, "high latency"); (FAILURE, "unreachable")].

Definition scenario : @heap string :=
  (log_all 0 scenario_calls (MonitoringResults_init empty_heap).1).1.

(** Three logs [0], [1], [2] with a few messages each. *)
Definition three_logs : @heap string :=
  (log_all 2 [(WARNING, "c1")]
    (log_all 1 [(OK, "b1"); (FAILURE, "b2")]
      (log_all 0 [(OK, "a1")]
        (MonitoringResults_init
          (MonitoringResults_init
            (MonitoringResults_init empty_heap).1).1).1).1).1).1.

(** One instance of [ping_check]. *)
Definition one_module : @heap string := (Monitoring_init ping_check empty_heap).1.

Lemma scenario_ok : heap_ok scenario.
Proof.
  apply heap_ok_log_all, heap_ok_MonitoringResults_init;
    [apply netbox_levels_ordered|apply heap_ok_empty].
Qed.

Lemma three_logs_ok : heap_ok three_logs.
Proof.
  do 3 apply heap_ok_log_all.
  do 3 (apply heap_ok_MonitoringResults_init; [apply netbox_levels_ordered|]).
  apply heap_ok_empty.
Qed.

Lemma one_module_ok : heap_ok one_module.
Proof.
  apply heap_ok_Monitoring_init; [apply netbox_levels_ordered|apply heap_ok_empty].
Qed.

(** C1 (the code at the failing input): on a new instance,
    [log_failure "unreachable"] appends the text to the FAILURE bucket of the
    instance's log, yet the instance's [failed] flag is still [False]
    afterwards: the method never assigns it, although its docstring says the
    call marks the report as failed. *)
Theorem log_failure_leaves_failed_false :
  exists h1,
    log_failure 0 "unreachable" (Monitoring_init link_check empty_heap).1
      = (h1, inr tt) /\
    bucket h1 0 LOG_FAILURE = Some ["unreachable"] /\
    failed <$> (h_modules h1 !! 0%nat) = Some false.
Proof. eexists. split; [reflexivity|split; reflexivity]. Qed.

(** The base class itself: [run] ends with [NotImplementedError]. *)
Example run_base_class_not_implemented :
  exists h',
    run 0 "sw1" (Monitoring_init Monitoring_base empty_heap).1
      = (h', inl NotImplementedError).
Proof. eexists. reflexivity. Qed.

(** Why the results on [__add__] ask for distinct operands: adding a log to
    itself extends each of its lists by its own elements. *)
Example add_same_log_twice :
  exists h',
    MonitoringResults_add 0 (PyResults 0) scenario = (h', inr 0%nat) /\
    bucket h' 0 LOG_OK = Some ["ping succeeded"; "ping succeeded"].
Proof. eexists. split; reflexivity. Qed.

Lemma get_worst_message_most_severe_witness :
  levels_ordered netbox_levels /\ heap_ok scenario /\
  (0 < length (h_results scenario))%nat /\
  exists m,
    get_worst_message 0 scenario = (scenario, inr m) /\
    ((exists s rest,
        level m = level_of s /\
        bucket scenario 0 (level_of s) = Some (message m :: rest) /\
        forall s', (precedence s < precedence s')%nat ->
                   bucket scenario 0 (level_of s') = Some []) \/
     ((forall s, bucket scenario 0 (level_of s) = Some []) /\
      m = {| level := LOG_DEFAULT; message := "" |})).
Proof.
  split; [apply netbox_levels_ordered|].
  split; [apply scenario_ok|].
  split; [simpl; lia|].
  apply (get_worst_message_most_severe scenario 0
           netbox_levels_ordered scenario_ok).
  simpl; lia.
Defined.

Lemma add_identity_or_invalid_witness :
  MonitoringResults_add 0 (PyInt 0) scenario = (scenario, inr 0%nat) /\
  MonitoringResults_add 0 (PyBool false) scenario = (scenario, inr 0%nat) /\
  MonitoringResults_add 0 (PyStr "x") scenario = (scenario, inl ValueError) /\
  MonitoringResults_add 0 PyNone scenario = (scenario, inl ValueError).
Proof.
  destruct (add_identity_or_invalid scenario 0) as (H0 & Hz & Hv).
  split; [exact H0|].
  split; [apply Hz; reflexivity|].
  split; apply Hv; reflexivity.
Defined.

Lemma get_folds_or_propagates_witness :
  (exists h' r,
     get [[ping_check; link_check]; []] "sw1" empty_heap = (h', inr r) /\
     forall s, bucket h' r (level_of s) =
       Some (concat (map (fun c => script_messages (cls_get c "sw1") s)
                         [ping_check; link_check]))) /\
  (exists h',
     get [[ping_check]; [broken_check; link_check]] "sw1" empty_heap
       = (h', inl (RuntimeError "boom"))).
Proof.
  split.
  - apply (proj1 (get_folds_or_propagates empty_heap
                    [[ping_check; link_check]; []] "sw1"
                    netbox_levels_ordered heap_ok_empty)).
    repeat constructor.
  - apply (proj2 (get_folds_or_propagates empty_heap
                    [[ping_check]; [broken_check; link_check]] "sw1"
                    netbox_levels_ordered heap_ok_empty)
             [ping_check] broken_check [link_check] (RuntimeError "boom")).
    + reflexivity.
    + repeat constructor.
    + reflexivity.
Defined.

Lemma get_messages_after_logs_witness :
  levels_ordered netbox_levels /\ heap_ok (@empty_heap string) /\
  exists h1 r h2 l,
    MonitoringResults_init (@empty_heap string) = (h1, inr r) /\
    log_all r scenario_calls h1 = (h2, inr tt) /\
    get_messages r (level_of WARNING) h2 = (h2, inr l) /\
    h_lists h2 !! l = Some ["high latency"].
Proof.
  split; [apply netbox_levels_ordered|].
  split; [apply heap_ok_empty|].
  apply (get_messages_after_logs empty_heap scenario_calls WARNING
           netbox_levels_ordered heap_ok_empty).
Defined.

Lemma get_all_messages_descending_witness :
  levels_ordered netbox_levels /\ heap_ok scenario /\
  messages scenario 0 FAILURE <> [] /\
  exists output,
    get_all_messages 0 scenario = (scenario, inr output) /\
    Permutation output
      (flat_map (fun s => tagged s (messages scenario 0 s)) all_severities) /\
    StronglySorted (fun m1 m2 => level m2 <= level m1) output /\
    exists m rest, output = m :: rest /\ level m = LOG_FAILURE.
Proof.
  assert (Hne : messages scenario 0 FAILURE <> []) by (vm_compute; discriminate).
  split; [apply netbox_levels_ordered|].
  split; [apply scenario_ok|].
  split; [exact Hne|].
  destruct (get_all_messages_descending scenario 0
              netbox_levels_ordered scenario_ok) as (out & H1 & H2 & H3 & H4);
    [simpl; lia|].
  exists out. repeat split; auto.
Defined.

Lemma add_changes_left_operand_only_witness :
  levels_ordered netbox_levels /\ heap_ok three_logs /\ 0%nat <> 1%nat /\
  exists h',
    MonitoringResults_add 0 (PyResults 1) three_logs = (h', inr 0%nat) /\
    (forall k, bucket h' 1 k = bucket three_logs 1 k) /\
    (forall r k, r <> 0%nat -> bucket h' r k = bucket three_logs r k) /\
    h_modules h' = h_modules three_logs.
Proof.
  split; [apply netbox_levels_ordered|].
  split; [apply three_logs_ok|].
  split; [lia|].
  apply (add_changes_left_operand_only three_logs 0 1
           netbox_levels_ordered three_logs_ok); simpl; lia.
Defined.

Lemma run_twice_accumulates_witness :
  levels_ordered netbox_levels /\ heap_ok one_module /\
  exists h1 h2 r,
    run 0 "sw1" one_module = (h1, inr r) /\
    run 0 "sw2" h1 = (h2, inr r) /\
    forall s, bucket h2 r (level_of s) =
      Some (messages one_module r s ++
            script_messages (cls_get ping_check "sw1") s ++
            script_messages (cls_get ping_check "sw2") s).
Proof.
  split; [apply netbox_levels_ordered|].
  split; [apply one_module_ok|].
  apply (run_twice_accumulates one_module 0
           {| class_of := ping_check; active_test := None; failed := false;
              _results := 0 |} "sw1" "sw2"
           netbox_levels_ordered one_module_ok); reflexivity.
Defined.

Lemma get_all_messages_stable_witness :
  levels_ordered netbox_levels /\ heap_ok scenario /\
  exists output,
    get_all_messages 0 scenario = (scenario, inr output) /\
    filter (fun m => level m = level_of WARNING) output =
      tagged WARNING (messages scenario 0 WARNING).
Proof.
  split; [apply netbox_levels_ordered|].
  split; [apply scenario_ok|].
  apply (get_all_messages_stable scenario 0 WARNING
           netbox_levels_ordered scenario_ok).
  simpl; lia.
Defined.

(** * Concrete runs of the further properties *)

(** One instance of the base class, and one of a class whose [get] raises. *)
Definition base_module : @heap string :=
  (Monitoring_init Monitoring_base empty_heap).1.

Definition broken_module : @heap string :=
  (Monitoring_init broken_check empty_heap).1.

Lemma broken_module_ok : heap_ok broken_module.
Proof.
  apply heap_ok_Monitoring_init; [apply netbox_levels_ordered|apply heap_ok_empty].
Qed.

Lemma unknown_level_raises_KeyError_witness :
  heap_ok scenario /\ (99 ∉ standard_keys) /\
  log 0 99 "lost" scenario = (scenario, inl KeyError) /\
  get_messages 0 99 scenario = (scenario, inl KeyError).
Proof.
  assert (Hk : 99 ∉ standard_keys).
  { unfold standard_keys. simpl. rewrite !not_elem_of_cons.
    repeat split; try lia. apply not_elem_of_nil. }
  split; [apply scenario_ok|]. split; [exact Hk|].
  apply (unknown_level_raises_KeyError scenario 0 99 "lost" scenario_ok);
    [simpl; lia|exact Hk].
Defined.

Lemma log_changes_one_bucket_witness :
  heap_ok three_logs /\
  exists h',
    log 1 (level_of OK) "b3" three_logs = (h', inr tt) /\
    bucket h' 1 (level_of OK) = Some (messages three_logs 1 OK ++ ["b3"]) /\
    (forall r' k', (r', k') <> (1%nat, level_of OK) ->
       bucket h' r' k' = bucket three_logs r' k') /\
    h_results h' = h_results three_logs /\
    h_modules h' = h_modules three_logs.
Proof.
  split; [apply three_logs_ok|].
  apply (log_changes_one_bucket three_logs 1 OK "b3" three_logs_ok).
  simpl; lia.
Defined.

Lemma get_messages_returns_live_list_witness :
  heap_ok scenario /\
  exists l old h',
    get_messages 0 (level_of WARNING) scenario = (scenario, inr l) /\
    h_lists scenario !! l = Some old /\
    log 0 (level_of WARNING) "jitter" scenario = (h', inr tt) /\
    h_lists h' !! l = Some (old ++ ["jitter"]) /\
    get_messages 0 (level_of WARNING) h' = (h', inr l).
Proof.
  split; [apply scenario_ok|].
  apply (get_messages_returns_live_list scenario 0 WARNING "jitter"
           scenario_ok).
  simpl; lia.
Defined.

Lemma new_log_is_empty_witness :
  levels_ordered netbox_levels /\ heap_ok scenario /\
  exists h' r,
    MonitoringResults_init scenario = (h', inr r) /\
    r = length (h_results scenario) /\
    get_all_messages r h' = (h', inr []) /\
    get_worst_message r h' =
      (h', inr {| level := LOG_DEFAULT; message := "" |}) /\
    (forall r' k, (r' < length (h_results scenario))%nat ->
       bucket h' r' k = bucket scenario r' k) /\
    h_modules h' = h_modules scenario.
Proof.
  split; [apply netbox_levels_ordered|]. split; [apply scenario_ok|].
  apply (new_log_is_empty scenario netbox_levels_ordered scenario_ok).
Defined.

Lemma add_empty_log_identity_witness :
  levels_ordered netbox_levels /\ heap_ok scenario /\
  exists h1 e,
    MonitoringResults_init scenario = (h1, inr e) /\
    (exists h2,
       MonitoringResults_add 0 (PyResults e) h1 = (h2, inr 0%nat) /\
       forall s, bucket h2 0 (level_of s) = bucket scenario 0 (level_of s)) /\
    (exists h2,
       MonitoringResults_add e (PyResults 0) h1 = (h2, inr e) /\
       forall s, bucket h2 e (level_of s) = bucket scenario 0 (level_of s) /\
                 bucket h2 0 (level_of s) = bucket scenario 0 (level_of s)).
Proof.
  split; [apply netbox_levels_ordered|]. split; [apply scenario_ok|].
  apply (add_empty_log_identity scenario 0 netbox_levels_ordered scenario_ok).
  simpl; lia.
Defined.

Lemma add_to_itself_doubles_witness :
  levels_ordered netbox_levels /\ heap_ok scenario /\
  exists h',
    MonitoringResults_add 0 (PyResults 0) scenario = (h', inr 0%nat) /\
    (forall s, bucket h' 0 (level_of s) =
       Some (messages scenario 0 s ++ messages scenario 0 s)) /\
    (forall r k, r <> 0%nat -> bucket h' r k = bucket scenario r k) /\
    h_modules h' = h_modules scenario.
Proof.
  split; [apply netbox_levels_ordered|]. split; [apply scenario_ok|].
  apply (add_to_itself_doubles scenario 0 netbox_levels_ordered scenario_ok).
  simpl; lia.
Defined.

Lemma worst_message_of_sum_witness :
  levels_ordered netbox_levels /\ heap_ok three_logs /\
  exists ma mb h' mab,
    get_worst_message 0 three_logs = (three_logs, inr ma) /\
    get_worst_message 1 three_logs = (three_logs, inr mb) /\
    MonitoringResults_add 0 (PyResults 1) three_logs = (h', inr 0%nat) /\
    get_worst_message 0 h' = (h', inr mab) /\
    level mab = Z.max (level ma) (level mb) /\
    (level mb < level ma -> mab = ma) /\
    (level ma < level mb -> mab = mb).
Proof.
  split; [apply netbox_levels_ordered|]. split; [apply three_logs_ok|].
  apply (worst_message_of_sum three_logs 0 1
           netbox_levels_ordered three_logs_ok); simpl; lia.
Defined.

Lemma get_all_messages_exact_witness :
  levels_ordered netbox_levels /\ heap_ok scenario /\
  get_all_messages 0 scenario =
  (scenario,
   inr [ {| level := 40; message := "unreachable" |};
         {| level := 30; message := "high latency" |};
         {| level := 10; message := "ping succeeded" |} ]).
Proof.
  split; [apply netbox_levels_ordered|]. split; [apply scenario_ok|].
  apply (get_all_messages_exact scenario 0 netbox_levels_ordered scenario_ok).
  simpl; lia.
Defined.

Lemma get_all_messages_of_sum_witness :
  levels_ordered netbox_levels /\ heap_ok three_logs /\
  exists h' output,
    MonitoringResults_add 0 (PyResults 1) three_logs = (h', inr 0%nat) /\
    get_all_messages 0 h' = (h', inr output) /\
    filter (fun m => level m = level_of OK) output =
      tagged OK (messages three_logs 0 OK ++ messages three_logs 1 OK).
Proof.
  split; [apply netbox_levels_ordered|]. split; [apply three_logs_ok|].
  apply (get_all_messages_of_sum three_logs 0 1 OK
           netbox_levels_ordered three_logs_ok); simpl; lia.
Defined.

Lemma run_without_override_raises_witness :
  run 0 "sw1" base_module = (base_module, inl NotImplementedError).
Proof.
  apply (run_without_override_raises base_module 0
           {| class_of := Monitoring_base; active_test := None;
              failed := false; _results := 0 |} "sw1"); reflexivity.
Defined.

Lemma run_keeps_messages_logged_before_raise_witness :
  levels_ordered netbox_levels /\ heap_ok broken_module /\
  exists h',
    run 0 "sw1" broken_module = (h', inl (RuntimeError "boom")) /\
    (forall s, bucket h' 0 (level_of s) =
       Some (messages broken_module 0 s ++
             script_messages (cls_get broken_check "sw1") s)) /\
    (forall r k, r <> 0%nat -> bucket h' r k = bucket broken_module r k).
Proof.
  split; [apply netbox_levels_ordered|]. split; [apply broken_module_ok|].
  apply (run_keeps_messages_logged_before_raise broken_module 0
           {| class_of := broken_check; active_test := None;
              failed := false; _results := 0 |} "sw1" (RuntimeError "boom")
           netbox_levels_ordered broken_module_ok); reflexivity.
Defined.

Lemma new_instance_owns_new_empty_log_witness :
  levels_ordered netbox_levels /\ heap_ok one_module /\
  exists h',
    Monitoring_init link_check one_module
      = (h', inr (length (h_modules one_module))) /\
    h_modules h' !! length (h_modules one_module) =
      Some {| class_of := link_check; active_test := None; failed := false;
              _results := length (h_results one_module) |} /\
    (forall s, bucket h' (length (h_results one_module)) (level_of s)
               = Some []) /\
    (forall m o, h_modules one_module !! m = Some o ->
                 h_modules h' !! m = Some o) /\
    (forall r k, (r < length (h_results one_module))%nat ->
       bucket h' r k = bucket one_module r k).
Proof.
  split; [apply netbox_levels_ordered|]. split; [apply one_module_ok|].
  apply (new_instance_owns_new_empty_log one_module link_check
           netbox_levels_ordered one_module_ok).
Defined.

Lemma get_monitoring_instantiates_each_class_witness :
  levels_ordered netbox_levels /\ heap_ok one_module /\
  exists h' ms,
    get_monitoring [[ping_check; link_check]; []; [broken_check]] one_module
      = (h', inr ms) /\
    ms = [1; 2; 3]%nat /\
    Forall2 (fresh_module h') ms [ping_check; link_check; broken_check] /\
    (forall m o, h_modules one_module !! m = Some o ->
                 h_modules h' !! m = Some o) /\
    (forall r k, (r < length (h_results one_module))%nat ->
       bucket h' r k = bucket one_module r k).
Proof.
  split; [apply netbox_levels_ordered|]. split; [apply one_module_ok|].
  apply (get_monitoring_instantiates_each_class one_module
           [[ping_check; link_check]; []; [broken_check]]
           netbox_levels_ordered one_module_ok).
Defined.

Lemma get_runs_modules_up_to_first_failure_witness :
  levels_ordered netbox_levels /\ heap_ok (@empty_heap string) /\
  exists h' res,
    get [[ping_check]; [broken_check; link_check]] "sw1" empty_heap
      = (h', res) /\
    Forall2 (module_logged h' "sw1") [0; 1]%nat [ping_check; broken_check] /\
    Forall2 (fresh_module h') [2%nat] [link_check] /\
    (forall r0 k, (r0 < length (h_results (@empty_heap string)))%nat ->
       bucket h' r0 k = bucket (@empty_heap string) r0 k).
Proof.
  split; [apply netbox_levels_ordered|]. split; [apply heap_ok_empty|].
  apply (get_runs_modules_up_to_first_failure empty_heap
           [[ping_check]; [broken_check; link_check]] "sw1"
           netbox_levels_ordered heap_ok_empty).
Defined.

Lemma get_twice_is_independent_witness :
  levels_ordered netbox_levels /\ heap_ok (@empty_heap string) /\
  exists h1 r1 h2 r2,
    get [[ping_check; link_check]] "sw1" empty_heap = (h1, inr r1) /\
    get [[ping_check; link_check]] "sw1" h1 = (h2, inr r2) /\
    r1 <> r2 /\
    forall s,
      bucket h2 r2 (level_of s) =
        Some (concat (map (fun c => script_messages (cls_get c "sw1") s)
                          [ping_check; link_check])) /\
      bucket h2 r1 (level_of s) = bucket h2 r2 (level_of s).
Proof.
  split; [apply netbox_levels_ordered|]. split; [apply heap_ok_empty|].
  apply (get_twice_is_independent empty_heap [[ping_check; link_check]] "sw1"
           netbox_levels_ordered heap_ok_empty).
  repeat constructor.
Defined.

(** Display tables in the style of upstream NetBox. *)
Definition sample_colors : list (Z * string) :=
  [(0, "default"); (10, "success"); (20, "info"); (30, "warning");
   (40, "danger")].

Definition sample_descriptions : list (Z * string) :=
  [(0, "Default"); (10, "OK"); (20, "Info"); (30, "Warning"); (40, "Failure")].

Lemma log_primitive_appends_to_own_bucket_witness :
  heap_ok one_module /\
  exists h',
    log_primitive INFO 0 "probing" one_module = (h', inr tt) /\
    bucket h' 0 (level_of INFO) =
      Some (messages one_module 0 INFO ++ ["probing"]) /\
    (forall r' k', (r', k') <> (0%nat, level_of INFO) ->
       bucket h' r' k' = bucket one_module r' k') /\
    h_modules h' = h_modules one_module.
Proof.
  split; [apply one_module_ok|].
  apply (log_primitive_appends_to_own_bucket one_module 0
           {| class_of := ping_check; active_test := None; failed := false;
              _results := 0 |} INFO "probing" one_module_ok).
  reflexivity.
Defined.

Lemma display_of_returned_messages_defined_witness :
  levels_ordered netbox_levels /\ heap_ok scenario /\
  exists worst output,
    get_worst_message 0 scenario = (scenario, inr worst) /\
    get_all_messages 0 scenario = (scenario, inr output) /\
    Forall (fun m => exists c d,
              color sample_colors m = inr c /\
              description sample_descriptions m = inr d)
      (worst :: output).
Proof.
  split; [apply netbox_levels_ordered|]. split; [apply scenario_ok|].
  apply (display_of_returned_messages_defined sample_colors
           sample_descriptions scenario 0
           netbox_levels_ordered scenario_ok).
  - simpl; lia.
  - intros []; simpl; eauto.
  - intros []; simpl; eauto.
Defined.

(** C4, as stated, fails when the left operand occurs again on the right,
    because [__add__] extends its left operand in place.  With [a] also as
    [b]: [(a + a) + c] holds the WARNING text of [c] once, [a + (a + c)]
    twice.  With [a] also as [c]: [(a + b) + a] holds four OK texts,
    [a + (b + a)] three. *)
Lemma add_not_associative_on_reused_left_operand :
  (exists hl rl hr rr,
     bind (MonitoringResults_add 0 (PyResults 0))
       (fun ab => MonitoringResults_add ab (PyResults 2)) three_logs
       = (hl, inr rl) /\
     bind (MonitoringResults_add 0 (PyResults 2))
       (fun bc => MonitoringResults_add 0 (PyResults bc)) three_logs
       = (hr, inr rr) /\
     bucket hl rl (level_of WARNING) = Some ["c1"] /\
     bucket hr rr (level_of WARNING) = Some ["c1"; "c1"] /\
     bucket hl rl (level_of WARNING) <> bucket hr rr (level_of WARNING)) /\
  (exists hl rl hr rr,
     bind (MonitoringResults_add 0 (PyResults 1))
       (fun ab => MonitoringResults_add ab (PyResults 0)) three_logs
       = (hl, inr rl) /\
     bind (MonitoringResults_add 1 (PyResults 0))
       (fun bc => MonitoringResults_add 0 (PyResults bc)) three_logs
       = (hr, inr rr) /\
     bucket hl rl (level_of OK) = Some ["a1"; "b1"; "a1"; "b1"] /\
     bucket hr rr (level_of OK) = Some ["a1"; "b1"; "a1"] /\
     bucket hl rl (level_of OK) <> bucket hr rr (level_of OK)).
Proof.
  split; vm_compute; do 4 eexists;
    (split; [reflexivity|split; [reflexivity|split; [reflexivity|
      split; [reflexivity|discriminate]]]]).
Qed.

(** The amended C4 with [b] and [c] the same log: [(a + b) + b] against
    [a + (b + b)]. *)
Lemma add_associative_witness :
  levels_ordered netbox_levels /\ heap_ok three_logs /\
  0%nat <> 1%nat /\
  exists hl rl hr rr,
    bind (MonitoringResults_add 0 (PyResults 1))
      (fun ab => MonitoringResults_add ab (PyResults 1)) three_logs
      = (hl, inr rl) /\
    bind (MonitoringResults_add 1 (PyResults 1))
      (fun bc => MonitoringResults_add 0 (PyResults bc)) three_logs
      = (hr, inr rr) /\
    forall s,
      bucket hl rl (level_of s) =
        Some (messages three_logs 0 s ++ messages three_logs 1 s ++
              messages three_logs 1 s) /\
      bucket hr rr (level_of s) = bucket hl rl (level_of s).
Proof.
  split; [apply netbox_levels_ordered|].
  split; [apply three_logs_ok|].
  split; [lia|].
  apply (add_associative three_logs 0 1 1
           netbox_levels_ordered three_logs_ok); simpl; lia.
Defined.
